(** * Indian Market Indices Dashboard: the fetch layer of [app.py]

    A shallow embedding of the data-fetch layer of [src/app.py]
    ([fetch_indicator], [fetch_all_indicators], the cached wrapper of the
    latter and the filtering prelude of the page script), followed by the
    properties claimed for it.

    Conventions.
    - A Python [str] is a [string]; one [ascii] stands for one character, and
      case mapping is the ASCII one.
    - Python integers are [Z].
    - A Python [float] obtained from [float(str)] is a [pyfloat]: an
      infinity, a NaN, or the decimal number denoted by the literal
      (sign, digits, power of ten).  CPython then rounds that decimal to the
      nearest binary64; the rounding is not modelled, the overflow to an
      infinity is.
    - The network, the clock and the page are explicit state: an upstream
      state machine, a chronological event log, and the time of a call
      passed as an argument.
    - The regular-expression engine behind [str.contains] is a parameter of
      the filters; what is used of it is stated where it is used. *)

From Stdlib Require Import ZArith QArith List String Ascii Bool Lia.
Import ListNotations.

Local Open Scope string_scope.
Local Open Scope list_scope.
Local Open Scope Z_scope.

(* ------------------------------------------------------------------ *)
(** * Python strings *)
(* ------------------------------------------------------------------ *)

Module PyStr.

Definition code (c : ascii) : N := N_of_ascii c.

Definition between (lo hi : N) (c : ascii) : bool :=
  ((lo <=? code c) && (code c <=? hi))%N.

(** The characters of a [str], in order. *)
Definition chars (s : string) : list ascii := list_ascii_of_string s.

Definition is_digit (c : ascii) : bool := between 48 57 c.
Definition is_upper (c : ascii) : bool := between 65 90 c.
Definition is_lower (c : ascii) : bool := between 97 122 c.
Definition is_alnum (c : ascii) : bool :=
  is_digit c || is_upper c || is_lower c.

(** [Py_ISSPACE]: space, and tab to carriage return. *)
Definition is_space (c : ascii) : bool :=
  (code c =? 32)%N || between 9 13 c.

(** [Py_TOLOWER], and [str.lower] on ASCII text. *)
Definition to_lower (c : ascii) : ascii :=
  if is_upper c then ascii_of_N (code c + 32) else c.

Definition lower (l : list ascii) : list ascii := map to_lower l.

(** [s.replace(c, '')] for a one-character [c]: every occurrence goes. *)
Fixpoint remove_char (c : ascii) (s : string) : string :=
  match s with
  | EmptyString => EmptyString
  | String a r =>
      if Ascii.eqb a c then remove_char c r else String a (remove_char c r)
  end.

Fixpoint lskip (l : list ascii) : list ascii :=
  match l with
  | c :: r => if is_space c then lskip r else l
  | [] => []
  end.

Definition rskip (l : list ascii) : list ascii := rev (lskip (rev l)).

(** The longest prefix of decimal digits, and what follows it. *)
Fixpoint span_digits (l : list ascii) : list ascii * list ascii :=
  match l with
  | c :: r =>
      if is_digit c
      then let '(ds, rest) := span_digits r in (c :: ds, rest)
      else ([], l)
  | [] => ([], [])
  end.

Definition digit_val (c : ascii) : N := (code c - 48)%N.

(** The number written by a run of decimal digits. *)
Definition digits_val (ds : list ascii) : N :=
  fold_left (fun acc c => (10 * acc + digit_val c)%N) ds 0%N.

(** [needle in hay], on character lists. *)
Fixpoint starts_with (eqc : ascii -> ascii -> bool)
         (p l : list ascii) : bool :=
  match p, l with
  | [], _ => true
  | _ :: _, [] => false
  | a :: p', b :: l' => eqc a b && starts_with eqc p' l'
  end.

Fixpoint occurs_in (p l : list ascii) : bool :=
  starts_with Ascii.eqb p l ||
  match l with
  | [] => false
  | _ :: l' => occurs_in p l'
  end.

End PyStr.

(* ------------------------------------------------------------------ *)
(** * Python floats read from text: [float(s)] *)
(* ------------------------------------------------------------------ *)

Inductive pyfloat : Type :=
| FDec (neg : bool) (m : N) (e : Z)   (* (-1)^neg * m * 10^e *)
| FInf (neg : bool)
| FNaN.

Module PyFloat.
Import PyStr.

Definition is_finite (f : pyfloat) : bool :=
  match f with FDec _ _ _ => true | _ => false end.

(** The decimal a finite value stands for. *)
Definition to_Q (f : pyfloat) : option Q :=
  match f with
  | FDec neg m e =>
      let a := (inject_Z (Z.of_N m) * Qpower (10 # 1) e)%Q in
      Some (if neg then Qopp a else a)
  | _ => None
  end.

(** Decimals at or above [2^1024 - 2^970] round to an infinity. *)
Definition overflow_bound : Z := 2 ^ 1024 - 2 ^ 970.

Definition overflows (m : N) (e : Z) : bool :=
  if 0 <=? e
  then overflow_bound <=? Z.of_N m * 10 ^ e
  else overflow_bound * 10 ^ (- e) <=? Z.of_N m.

Definition of_decimal (neg : bool) (m : N) (e : Z) : pyfloat :=
  if overflows m e then FInf neg else FDec neg m e.

(** [_Py_string_to_number_with_underscores]: an underscore is dropped when
    it stands between two digits and is an error anywhere else. *)
Fixpoint drop_underscores (prev : option ascii) (l : list ascii)
  : option (list ascii) :=
  match l with
  | [] =>
      match prev with
      | Some p => if Ascii.eqb p "_" then None else Some []
      | None => Some []
      end
  | c :: r =>
      if Ascii.eqb c "_" then
        match prev with
        | Some p => if is_digit p then drop_underscores (Some c) r else None
        | None => None
        end
      else
        let after_underscore :=
          match prev with Some p => Ascii.eqb p "_" | None => false end in
        if after_underscore && negb (is_digit c) then None
        else option_map (cons c) (drop_underscores (Some c) r)
  end.

(** An optional sign. *)
Definition take_sign (l : list ascii) : bool * list ascii :=
  match l with
  | c :: r =>
      if Ascii.eqb c "-" then (true, r)
      else if Ascii.eqb c "+" then (false, r)
      else (false, l)
  | [] => (false, [])
  end.

(** [_Py_parse_inf_or_nan], on the text after the sign, all of which has
    to be used. *)
Definition inf_or_nan (neg : bool) (body : list ascii) : option pyfloat :=
  let w := lower body in
  if list_eq_dec ascii_dec w (chars "inf") then Some (FInf neg)
  else if list_eq_dec ascii_dec w (chars "infinity") then Some (FInf neg)
  else if list_eq_dec ascii_dec w (chars "nan") then Some FNaN
  else None.

(** The exponent part: nothing, or [e]/[E], an optional sign and at least
    one digit, up to the end of the text. *)
Definition exponent (l : list ascii) : option Z :=
  match l with
  | [] => Some 0
  | c :: r =>
      if Ascii.eqb (to_lower c) "e" then
        let '(eneg, r1) := take_sign r in
        match span_digits r1 with
        | (d :: ds, []) =>
            let v := Z.of_N (digits_val (d :: ds)) in
            Some (if eneg then - v else v)
        | _ => None
        end
      else None
  end.

(** [_Py_dg_strtod], on the text after the sign: digits, an optional point
    and more digits, at least one digit in all, then the exponent part. *)
Definition decimal (neg : bool) (body : list ascii) : option pyfloat :=
  let '(ip, r1) := span_digits body in
  let '(fp, r2) :=
    match r1 with
    | c :: r => if Ascii.eqb c "." then span_digits r else ([], r1)
    | [] => ([], [])
    end in
  match ip ++ fp with
  | [] => None
  | _ :: _ =>
      match exponent r2 with
      | Some x =>
          Some (of_decimal neg (digits_val (ip ++ fp))
                           (x - Z.of_nat (List.length fp)))
      | None => None
      end
  end.

(** [float(s)] for a [str]; [None] is [ValueError]. *)
Definition float (s : string) : option pyfloat :=
  match drop_underscores None (chars s) with
  | None => None
  | Some l =>
      let '(neg, body) := take_sign (rskip (lskip l)) in
      match decimal neg body with
      | Some f => Some f
      | None => inf_or_nan neg body
      end
  end.

End PyFloat.

(* ------------------------------------------------------------------ *)
(** * Values, exceptions, requests *)
(* ------------------------------------------------------------------ *)

(** What [json.loads] can return.  A [PDict] lists the items of a [dict];
    a key is looked up from the front. *)
#[local] Unset Elimination Schemes.
Inductive pyval : Type :=
| PNone
| PBool (b : bool)
| PInt (z : Z)
| PFloat (f : pyfloat)
| PStr (s : string)
| PList (l : list pyval)
| PDict (d : list (string * pyval)).
#[local] Set Elimination Schemes.

Fixpoint dict_get (d : list (string * pyval)) (key : string) : option pyval :=
  match d with
  | [] => None
  | (k, v) :: d' => if String.eqb k key then Some v else dict_get d' key
  end.

(** The exceptions the fetch layer and the page meet ([ReError] is
    [re.error], raised when a query does not compile).  In the words of the
    specification: [RequestException] is a NetworkError, [HTTPError] an
    HttpStatusError, [JSONDecodeError] and the [ValueError] of line 93 a
    MalformedResponse, and the [ValueError] of [float] and the
    [AttributeError] of a field that is not a string a ParseError. *)
Inductive exn : Type :=
| RequestException (msg : string)
| HTTPError (status : Z) (url : string)
| JSONDecodeError
| ValueError (msg : string)
| AttributeError (msg : string)
| KeyError (key : string)
| ReError (pattern : string).

Record request : Type := mkRequest {
  req_url : string;
  req_headers : list (string * string);
  req_timeout : Z
}.

(** What one [requests.get] gives: it raises, or it returns a response with
    a status code and a body that [resp.json()] decodes ([Some]) or not. *)
Inductive http_result : Type :=
| GetRaised (e : exn)
| Response (status_code : Z) (json : option pyval).

(** The record [fetch_indicator] returns at line 98. *)
Record Quote : Type := mkQuote {
  label : string;
  price : pyfloat;
  change : pyfloat;
  pct : pyfloat
}.

Inductive event : Type :=
| EvGet (r : request)                      (* requests.get *)
| EvSleep (d : Z)                          (* time.sleep *)
| EvWarning (lbl : string) (e : exn).      (* st.warning, line 113 *)

(** The upstream and the passing of time as a state machine. *)
Class Upstream (W : Type) : Type := {
  http_get : request -> W -> http_result * W;
  pause : Z -> W -> W
}.

Record world (W : Type) : Type := mkWorld {
  net : W;
  log : list event
}.
Arguments mkWorld {W} _ _.
Arguments net {W} _.
Arguments log {W} _.

(* ------------------------------------------------------------------ *)
(** * Constants *)
(* ------------------------------------------------------------------ *)

Definition API_URL_TEMPLATE (x : string) : string :=
  "https://priceapi.moneycontrol.com/pricefeed/notapplicable/inidicesindia/"
  ++ x.

Definition REQUEST_HEADERS : list (string * string) :=
  [ ("User-Agent", "Mozilla/5.0");
    ("Accept", "application/json, text/plain, */*");
    ("Referer", "https://www.moneycontrol.com/") ].

Record Indicator : Type := mkIndicator {
  ind_code : string;
  ind_label : string
}.

Definition INDICATORS : list Indicator :=
  [ mkIndicator "in;cjn" "Nifty Commodities";
    mkIndicator "in;nnx" "Nifty Energy";
    mkIndicator "in;cnxt" "Nifty FMCG";
    mkIndicator "in;ncx" "Nifty Healthcare";
    mkIndicator "in;cnxs" "Nifty Infrastructure";
    mkIndicator "in;mfy" "Nifty IT";
    mkIndicator "mc;nscapf" "Nifty Private Banks";
    mkIndicator "in;IDXN" "Nifty Public Sector";
    mkIndicator "in;cnxa" "Nifty Auto";
    mkIndicator "in;cnit" "Nifty IT Services";
    mkIndicator "in;cuk" "Nifty Media";
    mkIndicator "in;cnxf" "Nifty Financial Services";
    mkIndicator "in;cpr" "Nifty Pharma";
    mkIndicator "in;cfm" "Nifty Metal";
    mkIndicator "in;CNXM" "Nifty Midcap";
    mkIndicator "in;crl" "Nifty Realty";
    mkIndicator "in;cnmx" "Nifty Smallcap";
    mkIndicator "in;cgy" "Nifty Green Energy";
    mkIndicator "in;nxb" "Nifty Banks";
    mkIndicator "in;cfr" "Nifty Retail";
    mkIndicator "in;cnxz" "Nifty Oil & Gas";
    mkIndicator "in;cnxc" "Nifty Consumer Durables";
    mkIndicator "in;cps" "Nifty PSU Banks";
    mkIndicator "in;crv" "Nifty Value 20";
    mkIndicator "mc;oilgas" "MC Oil & Gas";
    mkIndicator "mc;nmidcaps" "MC Nifty Midcaps";
    mkIndicator "mc;nm150qlty" "MC Nifty150 Quality 30" ].

(* ------------------------------------------------------------------ *)
(** * [fetch_indicator] *)
(* ------------------------------------------------------------------ *)

Module Fetch.
Import PyStr PyFloat.

Definition hex_digit (n : N) : ascii :=
  if (n <? 10)%N then ascii_of_N (48 + n) else ascii_of_N (55 + n).

(** [requests.utils.quote], that is [urllib.parse.quote] with its default
    [safe="/"]: letters, digits and [_.-~/] stay, any other byte becomes
    [%XX]. *)
Definition quote_safe (c : ascii) : bool :=
  is_alnum c ||
  existsb (Ascii.eqb c) ["_"; "."; "-"; "~"; "/"]%char.

Fixpoint quote (s : string) : string :=
  match s with
  | EmptyString => EmptyString
  | String c r =>
      if quote_safe c then String c (quote r)
      else String "%" (String (hex_digit (code c / 16))
                         (String (hex_digit (code c mod 16)) (quote r)))
  end.

(** Errors of one attempt: the [try] body is a chain of steps, the first
    that raises ends it. *)
Definition attempt_result (A : Type) : Type := (exn + A)%type.

Definition bind_attempt {A B} (x : attempt_result A)
           (k : A -> attempt_result B) : attempt_result B :=
  match x with
  | inl e => inl e
  | inr a => k a
  end.

Notation "'try!' x <- c ; k" := (bind_attempt c (fun x => k))
  (at level 60, x name, c at next level, right associativity).

(** [float(data.get(key, '0').replace(strip, ''))], lines 95 to 97. *)
Definition read_field (data : pyval) (key : string) (strip : ascii)
  : attempt_result pyfloat :=
  match data with
  | PDict d =>
      let v := match dict_get d key with
               | Some v => v
               | None => PStr "0"
               end in
      match v with
      | PStr s =>
          match float (remove_char strip s) with
          | Some f => inr f
          | None => inl (ValueError "could not convert string to float")
          end
      | _ => inl (AttributeError "object has no attribute 'replace'")
      end
  | _ => inl (AttributeError "object has no attribute 'get'")
  end.

(** [resp.raise_for_status()]. *)
Definition raise_for_status (url : string) (status : Z)
  : attempt_result unit :=
  if (400 <=? status) && (status <? 600)
  then inl (HTTPError status url) else inr tt.

(** Lines 92 to 94: the body has to be a [dict] with a [data] item that is
    not [None]. *)
Definition checked_data (lbl : string) (parsed : pyval)
  : attempt_result pyval :=
  let invalid := inl (ValueError ("Invalid JSON response for " ++ lbl)) in
  match parsed with
  | PDict d =>
      match dict_get d "data" with
      | None => invalid
      | Some PNone => invalid
      | Some data => inr data
      end
  | _ => invalid
  end.

(** Lines 90 to 98, on the response that line 89 obtained. *)
Definition attempt_body (url lbl : string) (r : http_result)
  : attempt_result Quote :=
  match r with
  | GetRaised e => inl e
  | Response status body =>
      try! _ <- raise_for_status url status;
      try! parsed <- match body with
                     | Some v => inr v
                     | None => inl JSONDecodeError
                     end;
      try! data <- checked_data lbl parsed;
      try! price <- read_field data "pricecurrent" ",";
      try! change <- read_field data "pricechange" ",";
      try! pct <- read_field data "pricepercentchange" "%";
      inr (mkQuote lbl price change pct)
  end.

(** How a call of [fetch_indicator] ends: with a value, which is [None]
    when the loop runs out, or with an exception. *)
Inductive outcome : Type :=
| Returned (q : option Quote)
| Raised (e : exn).

Section WithUpstream.
Context {W : Type} `{Upstream W}.

Definition get_request (url : string) : request :=
  mkRequest url REQUEST_HEADERS 5.

(** Line 89. *)
Definition requests_get (url : string) (w : world W)
  : http_result * world W :=
  let rq := get_request url in
  let '(r, n) := http_get rq (net w) in
  (r, mkWorld n (log w ++ [EvGet rq])).

(** [time.sleep(delay)]: a negative length raises [ValueError]. *)
Definition time_sleep (delay : Z) (w : world W)
  : attempt_result unit * world W :=
  if delay <? 0
  then (inl (ValueError "sleep length must be non-negative"), w)
  else (inr tt, mkWorld (pause delay (net w)) (log w ++ [EvSleep delay])).

(** The loop of lines 87 to 103; [todo] counts the iterations of
    [range(retries)] still to run and [attempt] is the loop variable. *)
Fixpoint fetch_loop (url lbl : string) (retries delay : Z)
         (todo : nat) (attempt : Z) (w : world W) : outcome * world W :=
  match todo with
  | O => (Returned None, w)
  | S todo' =>
      let '(r, w1) := requests_get url w in
      match attempt_body url lbl r with
      | inr q => (Returned (Some q), w1)
      | inl e =>
          if attempt <? retries - 1 then
            match time_sleep delay w1 with
            | (inr _, w2) =>
                fetch_loop url lbl retries delay todo' (attempt + 1) w2
            | (inl e', w2) => (Raised e', w2)
            end
          else (Raised e, w1)
      end
  end.

Definition fetch_indicator (code lbl : string) (retries delay : Z)
           (w : world W) : outcome * world W :=
  let url := API_URL_TEMPLATE (quote code) in
  fetch_loop url lbl retries delay (Z.to_nat retries) 0 w.

End WithUpstream.

End Fetch.

(* ------------------------------------------------------------------ *)
(** * [fetch_all_indicators] and its cache *)
(* ------------------------------------------------------------------ *)

(** A [pandas.DataFrame] of quote records: its column names and its rows. *)
Record DataFrame : Type := mkFrame {
  columns : list string;
  rows : list Quote
}.

Definition quote_columns : list string := ["label"; "price"; "change"; "pct"].

Fixpoint quotes_of (records : list (option Quote)) : list Quote :=
  match records with
  | [] => []
  | Some q :: r => q :: quotes_of r
  | None :: r => quotes_of r
  end.

(** [pd.DataFrame(records)]: no record, no column; otherwise the columns are
    the keys of the records.  A list that holds [None] is not a list of
    records; [fetch_all_indicators] never builds one (see
    [fetch_indicator_default]), and the model keeps the quotes of such a list
    only. *)
Definition pd_DataFrame (records : list (option Quote)) : DataFrame :=
  match records with
  | [] => mkFrame [] []
  | _ :: _ => mkFrame quote_columns (quotes_of records)
  end.

(** [df.empty]: some axis has length zero. *)
Definition df_empty (df : DataFrame) : bool :=
  match columns df, rows df with
  | _ :: _, _ :: _ => false
  | _, _ => true
  end.

Module Batch.
Import Fetch.

Section WithUpstream.
Context {W : Type} `{Upstream W}.

(** [st.warning(f"Failed to fetch {label}: {e}")]. *)
Definition st_warning (lbl : string) (e : exn) (w : world W) : world W :=
  mkWorld (net w) (log w ++ [EvWarning lbl e]).

(** The loop of lines 108 to 113, with the defaults [retries=3] and
    [delay=1] of [fetch_indicator]. *)
Fixpoint fetch_all_loop (inds : list Indicator)
         (records : list (option Quote)) (w : world W)
  : list (option Quote) * world W :=
  match inds with
  | [] => (records, w)
  | ind :: rest =>
      match fetch_indicator (ind_code ind) (ind_label ind) 3 1 w with
      | (Returned rec, w1) => fetch_all_loop rest (records ++ [rec]) w1
      | (Raised e, w1) =>
          fetch_all_loop rest records (st_warning (ind_label ind) e w1)
      end
  end.

(** The body of [fetch_all_indicators], over a list of instruments. *)
Definition fetch_all_over (inds : list Indicator) (w : world W)
  : DataFrame * world W :=
  let '(records, w') := fetch_all_loop inds [] w in
  (pd_DataFrame records, w').

Definition fetch_all_indicators_body : world W -> DataFrame * world W :=
  fetch_all_over INDICATORS.

(** ** The decorator of line 105

    [st.cache_data(ttl=...)] on a function without arguments keeps one
    entry: the value, the page elements the function emitted (they are
    replayed on a hit) and the time of the store.  An entry is served
    while the clock is before [created_at + ttl]. *)
Record cache_entry : Type := mkEntry {
  value : DataFrame;
  messages : list event;
  created_at : Z
}.

Definition is_warning (ev : event) : bool :=
  match ev with EvWarning _ _ => true | _ => false end.

Definition cache_data (ttl : Z) (f : world W -> DataFrame * world W)
           (now : Z) (c : option cache_entry) (w : world W)
  : DataFrame * option cache_entry * world W :=
  let miss :=
    let '(v, w1) := f w in
    let emitted := skipn (List.length (log w)) (log w1) in
    (v, Some (mkEntry v (filter is_warning emitted) now), w1) in
  match c with
  | Some e =>
      if now <? created_at e + ttl
      then (value e, c, mkWorld (net w) (log w ++ messages e))
      else miss
  | None => miss
  end.

(** Lines 105 and 106. *)
Definition fetch_all_indicators
  : Z -> option cache_entry -> world W
    -> DataFrame * option cache_entry * world W :=
  cache_data 300 fetch_all_indicators_body.

End WithUpstream.

End Batch.

(* ------------------------------------------------------------------ *)
(** * The filtering prelude of the page, lines 163 to 171 *)
(* ------------------------------------------------------------------ *)

Module Page.
Import PyStr.

(** ** The engine behind [Series.str.contains(pat, case=False)]

    Line 167 has the query compiled as a regular expression ([regex=True]
    is the default of [str.contains]) with [re.IGNORECASE] and searched in
    every label.  The engine is a library, and the page is modelled over
    any engine: whether a pattern compiles (if not, compiling raises), and
    whether a pattern that compiles is found somewhere in a text. *)
Class Regex : Type := {
  re_compiles : string -> bool;
  re_found : string -> string -> bool
}.

(** ** What is documented of the engine

    A pattern made of plain characters and dots, in ASCII, over an ASCII
    text: a plain character stands for itself in either case, the dot for
    any character but the newline, and the pattern is found when it matches
    at some position of the text. *)
Inductive atom : Type :=
| Lit (c : ascii)
| AnyChar.

Definition re_special (c : ascii) : bool :=
  existsb (Ascii.eqb c)
    ["."; "^"; "$"; "*"; "+"; "?"; "{"; "}"; "["; "]"; "\"; "|"; "(";
     ")"]%char.

(** The atoms of a pattern of plain characters and dots; [None] for any
    other pattern, of which nothing is said here. *)
Fixpoint re_compile (pat : list ascii) : option (list atom) :=
  match pat with
  | [] => Some []
  | c :: r =>
      match re_compile r with
      | None => None
      | Some atoms =>
          if Ascii.eqb c "." then Some (AnyChar :: atoms)
          else if re_special c then None
          else Some (Lit c :: atoms)
      end
  end.

Definition atom_matches (a : atom) (c : ascii) : bool :=
  match a with
  | Lit p => Ascii.eqb (to_lower p) (to_lower c)
  | AnyChar => negb (code c =? 10)%N
  end.

Fixpoint match_here (atoms : list atom) (l : list ascii) : bool :=
  match atoms, l with
  | [], _ => true
  | _ :: _, [] => false
  | a :: atoms', c :: l' => atom_matches a c && match_here atoms' l'
  end.

Fixpoint re_search (atoms : list atom) (l : list ascii) : bool :=
  match_here atoms l ||
  match l with
  | [] => false
  | _ :: l' => re_search atoms l'
  end.

Definition is_ascii (s : string) : bool :=
  forallb (fun c => (code c <? 128)%N) (chars s).

Definition re_plain (pat : string) : bool :=
  forallb (fun c => negb (re_special c)) (chars pat).

(** The three facts used of an engine: a pattern of plain characters and
    dots compiles; in ASCII, over an ASCII text, it is found as described
    above; and two patterns of plain characters that differ in the case of
    their ASCII letters only are found in the same texts. *)
Definition re_documented (E : Regex) : Prop :=
  (forall pat atoms,
      re_compile (chars pat) = Some atoms -> re_compiles pat = true) /\
  (forall pat atoms text,
      re_compile (chars pat) = Some atoms ->
      is_ascii pat = true -> is_ascii text = true ->
      re_found pat text = re_search atoms (chars text)) /\
  (forall p1 p2 text,
      re_plain p1 = true -> re_plain p2 = true ->
      lower (chars p1) = lower (chars p2) ->
      re_found p1 text = re_found p2 text).

(** An engine for the examples.  It knows the patterns of plain characters
    and dots and no other; it is as documented
    ([fragment_engine_documented]), and it is used on such patterns
    only. *)
Definition fragment_engine : Regex := {|
  re_compiles pat :=
    match re_compile (chars pat) with Some _ => true | None => false end;
  re_found pat text :=
    match re_compile (chars pat) with
    | Some atoms => re_search atoms (chars text)
    | None => false
    end
|}.

(** [Series.isin(selection)] on one label. *)
Definition isin (selection : list string) (l : string) : bool :=
  existsb (String.eqb l) selection.

(** How the prelude ends. *)
Inductive run (A : Type) : Type :=
| Done (a : A)
| Uncaught (e : exn).
Arguments Done {A} _.
Arguments Uncaught {A} _.

(** [df[mask(df["label"])]]: [df["label"]] raises [KeyError] on a frame
    without that column; the mask keeps the rows in their order. *)
Definition select_rows (df : DataFrame) (keep : string -> bool)
  : run DataFrame :=
  if existsb (String.eqb "label") (columns df)
  then Done (mkFrame (columns df) (filter (fun q => keep (label q)) (rows df)))
  else Uncaught (KeyError "label").

(** Lines 163 and 164. *)
Definition filter_selection (selection : list string) (df : DataFrame)
  : run DataFrame :=
  match selection with
  | [] => Done df
  | _ :: _ => select_rows df (isin selection)
  end.

(** What the page shows below the spinner. *)
Inductive page : Type :=
| NoDataWarning                 (* line 170 *)
| Charts (df : DataFrame)       (* lines 172 to 235 *)
| Crash (e : exn).              (* an exception nobody catches *)

Section WithEngine.
Context {E : Regex}.

(** Lines 166 and 167: [df["label"]] is evaluated first, the query is
    compiled next, and the compiled pattern is then searched in the
    labels. *)
Definition filter_search (search_query : string) (df : DataFrame)
  : run DataFrame :=
  match search_query with
  | EmptyString => Done df
  | String _ _ =>
      if existsb (String.eqb "label") (columns df) then
        if re_compiles search_query
        then select_rows df (re_found search_query)
        else Uncaught (ReError search_query)
      else Uncaught (KeyError "label")
  end.

(** Lines 163 to 167. *)
Definition apply_filters (selection : list string) (search_query : string)
           (df : DataFrame) : run DataFrame :=
  match filter_selection selection df with
  | Done df1 => filter_search search_query df1
  | Uncaught e => Uncaught e
  end.

(** Lines 163 to 171, on the frame of line 158. *)
Definition render (selection : list string) (search_query : string)
           (df : DataFrame) : page :=
  match apply_filters selection search_query df with
  | Done df' => if df_empty df' then NoDataWarning else Charts df'
  | Uncaught e => Crash e
  end.

End WithEngine.

(** ** The filter in the words of the specification *)

Definition contains_ci (query lbl : string) : bool :=
  occurs_in (lower (chars query)) (lower (chars lbl)).

Definition spec_filter (selection : list string) (query : string)
           (qs : list Quote) : list Quote :=
  filter (fun q =>
            isin selection (label q) &&
            match query with
            | EmptyString => true
            | String _ _ => contains_ci query (label q)
            end) qs.

End Page.

(* ------------------------------------------------------------------ *)
(** * Vocabulary of the statements *)
(* ------------------------------------------------------------------ *)

Module Scenario.
Import Fetch.

Section WithUpstream.
Context {W : Type} `{Upstream W}.

(** The upstream after [k] attempts at [url], each followed by a sleep
    of [delay]. *)
Fixpoint net_after (url : string) (delay : Z) (k : nat) (n : W) : W :=
  match k with
  | O => n
  | S k' =>
      net_after url delay k'
                (pause delay (snd (http_get (get_request url) n)))
  end.

(** What attempt number [k] (from zero) receives, and how it ends. *)
Definition response_at (url : string) (delay : Z) (n : W) (k : nat)
  : http_result :=
  fst (http_get (get_request url) (net_after url delay k n)).

Definition attempt_at (url lbl : string) (delay : Z) (n : W) (k : nat)
  : attempt_result Quote :=
  attempt_body url lbl (response_at url delay n k).

(** The upstream right after request number [k] (from zero). *)
Definition net_served (url : string) (delay : Z) (n : W) (k : nat) : W :=
  snd (http_get (get_request url) (net_after url delay k n)).

End WithUpstream.

Definition failure {A : Type} (r : attempt_result A) : option exn :=
  match r with
  | inl e => Some e
  | inr _ => None
  end.

(** [k] rounds of a request followed by a sleep. *)
Fixpoint retry_rounds (url : string) (delay : Z) (k : nat) : list event :=
  match k with
  | O => []
  | S k' => EvGet (get_request url) :: EvSleep delay
                                    :: retry_rounds url delay k'
  end.

Definition is_get (ev : event) : bool :=
  match ev with EvGet _ => true | _ => false end.

Definition is_sleep (ev : event) : bool :=
  match ev with EvSleep _ => true | _ => false end.

Definition is_network (ev : event) : bool :=
  match ev with EvWarning _ _ => false | _ => true end.

Definition count (p : event -> bool) (evs : list event) : nat :=
  List.length (filter p evs).

(** An upstream that plays a script: the responses to come, in order, and
    a refused connection once the script is over. *)
#[export] Instance scripted : Upstream (list http_result) := {
  http_get _ script :=
    match script with
    | r :: rest => (r, rest)
    | [] => (GetRaised (RequestException "connection refused"), [])
    end;
  pause _ script := script
}.

(** An upstream that answers every request alike. *)
#[export] Instance constant : Upstream http_result := {
  http_get _ r := (r, r);
  pause _ r := r
}.

Definition ok_json (v : pyval) : http_result := Response 200 (Some v).

(** The body of the example of the specification. *)
Definition nifty_it_body : pyval :=
  PDict [("data",
          PDict [("pricecurrent", PStr "34,210.55");
                 ("pricechange", PStr "-120.30");
                 ("pricepercentchange", PStr "-0.35%")])].

Definition data_null : pyval := PDict [("data", PNone)].

(** A body whose [data] has none of the three fields, and one whose
    current price is the text [nan]. *)
Definition no_fields_body : pyval := PDict [("data", PDict [])].

Definition nan_price_body : pyval :=
  PDict [("data",
          PDict [("pricecurrent", PStr "nan");
                 ("pricechange", PStr "1.5");
                 ("pricepercentchange", PStr "0.1%")])].

(** A status [raise_for_status] lets through. *)
Definition status_passes (status : Z) : Prop := ~ (400 <= status < 600).

(** A decoded body that is no mapping, has no [data], or a null one. *)
Definition malformed_body (parsed : pyval) : Prop :=
  (forall d, parsed <> PDict d) \/
  (exists d, parsed = PDict d /\
             (dict_get d "data" = None \/ dict_get d "data" = Some PNone)).

Definition malformed_response (r : http_result) : Prop :=
  exists status parsed,
    r = Response status (Some parsed) /\
    status_passes status /\ malformed_body parsed.

(** How a field of a quote relates to [data]: the number its text
    denotes once [strip] is removed, and zero when [data] has no such
    item. *)
Definition field_is (d : list (string * pyval)) (key : string)
           (strip : ascii) (v : pyfloat) : Prop :=
  match dict_get d key with
  | None => v = FDec false 0 0
  | Some (PStr s) => PyFloat.float (PyStr.remove_char strip s) = Some v
  | Some _ => False
  end.

(** Two quotes for the examples. *)
Definition quote_it : Quote :=
  mkQuote "Nifty IT" (FDec false 3421055 (-2)) (FDec true 12030 (-2))
          (FDec true 35 (-2)).

Definition quote_auto : Quote :=
  mkQuote "Nifty Auto" (FDec false 2350010 (-2)) (FDec false 4525 (-2))
          (FDec false 19 (-2)).

(** A query without any character that is special in a pattern. *)
Definition plain_query (query : string) : bool :=
  forallb (fun c => negb (Page.re_special c)) (PyStr.chars query).

(** [s] without its last character when that is a percent sign. *)
Fixpoint strip_trailing_percent (s : string) : string :=
  match s with
  | EmptyString => EmptyString
  | String c EmptyString => if Ascii.eqb c "%" then EmptyString else s
  | String c r => String c (strip_trailing_percent r)
  end.

(** The outcomes of the batch, instrument by instrument. *)
Section Outcomes.
Context {W : Type} `{Upstream W}.

Fixpoint batch_outcomes (inds : list Indicator) (w : world W)
  : list (Indicator * outcome) :=
  match inds with
  | [] => []
  | ind :: rest =>
      let '(o, w1) := fetch_indicator (ind_code ind) (ind_label ind) 3 1 w in
      (ind, o) ::
      batch_outcomes rest
        (match o with
         | Raised e => Batch.st_warning (ind_label ind) e w1
         | Returned _ => w1
         end)
  end.
End Outcomes.

Definition failed (io : Indicator * outcome) : bool :=
  match snd io with Raised _ => true | Returned _ => false end.

Fixpoint returned (os : list (Indicator * outcome)) : list (option Quote) :=
  match os with
  | [] => []
  | (_, Returned r) :: rest => r :: returned rest
  | (_, Raised _) :: rest => returned rest
  end.

Fixpoint fetched (os : list (Indicator * outcome)) : list Quote :=
  match os with
  | [] => []
  | (_, Returned (Some q)) :: r => q :: fetched r
  | _ :: r => fetched r
  end.

Fixpoint warnings_for (os : list (Indicator * outcome)) : list event :=
  match os with
  | [] => []
  | (ind, Raised e) :: r => EvWarning (ind_label ind) e :: warnings_for r
  | _ :: r => warnings_for r
  end.

End Scenario.

(* ------------------------------------------------------------------ *)
(** * [decorate_label] and the summary cards, lines 71 to 80 and 185 to 194 *)
(* ------------------------------------------------------------------ *)

Module Cards.
Import PyStr.

(** The [emojis] dict of [decorate_label], in the order of its items. *)
Definition emojis : list (string * string) :=
  [ ("Energy", "⚡"); ("IT", "💻"); ("Pharma", "💊");
    ("Auto", "🚗"); ("Bank", "🏦"); ("Retail", "🛍️");
    ("Media", "🎬"); ("Realty", "🏘️"); ("Metal", "🪙") ].

(** [key in label]. *)
Definition str_in (key lbl : string) : bool :=
  occurs_in (chars key) (chars lbl).

(** The loop of lines 77 to 80 over the items still to try. *)
Fixpoint decorate_from (items : list (string * string)) (lbl : string)
  : string :=
  match items with
  | [] => lbl
  | (key, emoji) :: rest =>
      if str_in key lbl then (emoji ++ " " ++ lbl)%string
      else decorate_from rest lbl
  end.

Definition decorate_label (lbl : string) : string := decorate_from emojis lbl.

(** [range(0, stop, step)] for a positive [step]. *)
Definition range_by (stop step : nat) : list nat :=
  map (fun i => (i * step)%nat) (seq 0 ((stop + step - 1) / step)).

(** [df.iloc[start:stop]] on the rows. *)
Definition iloc (rs : list Quote) (start stop : nat) : list Quote :=
  firstn (stop - start) (skipn start rs).

(** One [col.metric(...)] of line 190: the column it goes to, its label,
    and the row its value and delta are formatted from. *)
Record metric : Type := mkMetric {
  metric_column : nat;
  metric_label : string;
  metric_row : Quote
}.

(** Lines 187 to 194: one group of four columns for each start of the
    range, the rows of the slice zipped with the columns. *)
Definition summary_cards (df : DataFrame) : list (list metric) :=
  map (fun start =>
         map (fun cr => mkMetric (fst cr) (decorate_label (label (snd cr)))
                                 (snd cr))
             (combine (seq 0 4) (iloc (rows df) start (start + 4))))
      (range_by (List.length (rows df)) 4).

End Cards.

(* ------------------------------------------------------------------ *)
(** * More vocabulary *)
(* ------------------------------------------------------------------ *)

Module Reruns.
Import Fetch Batch.

Section WithUpstream.
Context {W : Type} `{Upstream W}.

(** The page is run once for each time of [times], in order; every run
    calls [fetch_all_indicators] at line 158. *)
Fixpoint rerun (times : list Z) (c : option cache_entry) (w : world W)
  : list DataFrame * option cache_entry * world W :=
  match times with
  | [] => ([], c, w)
  | t :: rest =>
      let '(v, c1, w1) := fetch_all_indicators t c w in
      let '(vs, c2, w2) := rerun rest c1 w1 in
      (v :: vs, c2, w2)
  end.

End WithUpstream.

(** The value of a digit of an escape. *)
Definition unhex (c : ascii) : N :=
  let n := PyStr.code c in
  if (n <? 58)%N then (n - 48)%N else (n - 55)%N.

(** Two dicts that agree on the three fields line 95 to 97 read. *)
Definition same_fields (d1 d2 : list (string * pyval)) : Prop :=
  dict_get d1 "pricecurrent" = dict_get d2 "pricecurrent" /\
  dict_get d1 "pricechange" = dict_get d2 "pricechange" /\
  dict_get d1 "pricepercentchange" = dict_get d2 "pricepercentchange".

End Reruns.

(* ================================================================== *)
(** * Properties *)
(* ================================================================== *)

Import PyStr PyFloat Fetch Batch Page Scenario.

(** ** The retry loop *)

Section RetryLoop.
Context {W : Type} `{Upstream W}.
Variables (url lbl : string) (retries delay : Z).
Hypothesis delay_nonneg : 0 <= delay.

(** After [k] failed attempts that leave room for one more, the loop is
    where it would be had it started [k] rounds later. *)
Lemma fetch_loop_skip_failures (k : nat) :
  forall (todo : nat) (attempt : Z) (w : world W),
    (k < todo)%nat ->
    attempt + Z.of_nat todo = retries ->
    (forall i, (i < k)%nat ->
               failure (attempt_at url lbl delay (net w) i) <> None) ->
    fetch_loop url lbl retries delay todo attempt w =
    fetch_loop url lbl retries delay (todo - k) (attempt + Z.of_nat k)
               (mkWorld (net_after url delay k (net w))
                        (log w ++ retry_rounds url delay k)).
Proof.
  induction k as [|k IH]; intros todo attempt w Hk Hsum Hfail.
  - simpl. rewrite Nat.sub_0_r, Z.add_0_r, app_nil_r.
    destruct w; reflexivity.
  - destruct todo as [|todo]; [lia|].
    assert (H0 : failure (attempt_at url lbl delay (net w) 0) <> None)
      by (apply Hfail; lia).
    unfold attempt_at, response_at in H0. simpl in H0.
    simpl fetch_loop at 1. unfold requests_get.
    destruct (http_get (get_request url) (net w)) as [r n1] eqn:Hget.
    simpl in H0.
    destruct (attempt_body url lbl r) as [e|q]; [|now elim H0].
    assert (Hlt : (attempt <? retries - 1) = true)
      by (apply Z.ltb_lt; lia).
    rewrite Hlt. unfold time_sleep.
    assert (Hd : (delay <? 0) = false) by (apply Z.ltb_ge; lia).
    rewrite Hd. cbn [net log].
    rewrite IH.
    + cbn [net log]. f_equal; [lia|].
      f_equal.
      * simpl. rewrite Hget. reflexivity.
      * rewrite <- !app_assoc. reflexivity.
    + lia.
    + lia.
    + intros i Hi. cbn [net].
      specialize (Hfail (S i) ltac:(lia)).
      unfold attempt_at, response_at in *. simpl in Hfail.
      rewrite Hget in Hfail. exact Hfail.
Qed.

(** One iteration that succeeds. *)
Lemma fetch_loop_success (todo : nat) (attempt : Z) (w : world W) (q : Quote) :
  attempt_at url lbl delay (net w) 0 = inr q ->
  fetch_loop url lbl retries delay (S todo) attempt w =
  (Returned (Some q),
   mkWorld (net_served url delay (net w) 0)
           (log w ++ [EvGet (get_request url)])).
Proof.
  unfold attempt_at, response_at, net_served. simpl. unfold requests_get.
  destruct (http_get (get_request url) (net w)) as [r n1].
  simpl. intros ->. reflexivity.
Qed.

(** The last iteration, failing. *)
Lemma fetch_loop_last_failure (todo : nat) (w : world W) (e : exn) :
  attempt_at url lbl delay (net w) 0 = inl e ->
  fetch_loop url lbl retries delay (S todo) (retries - 1) w =
  (Raised e,
   mkWorld (net_served url delay (net w) 0)
           (log w ++ [EvGet (get_request url)])).
Proof.
  unfold attempt_at, response_at, net_served. simpl. unfold requests_get.
  destruct (http_get (get_request url) (net w)) as [r n1].
  simpl. intros ->. rewrite Z.ltb_irrefl. reflexivity.
Qed.

Lemma attempt_at_shift (k i : nat) (n : W) :
  attempt_at url lbl delay (net_after url delay k n) i =
  attempt_at url lbl delay n (k + i).
Proof.
  unfold attempt_at, response_at. f_equal. f_equal. f_equal.
  revert n. induction k as [|k IH]; intros n; [reflexivity|].
  simpl. apply IH.
Qed.

Lemma net_served_shift (k i : nat) (n : W) :
  net_served url delay (net_after url delay k n) i =
  net_served url delay n (k + i).
Proof.
  unfold net_served. f_equal. f_equal.
  revert n. induction k as [|k IH]; intros n; [reflexivity|].
  simpl. apply IH.
Qed.

(** [k] failures, then a success, with [k < retries]. *)
Lemma fetch_loop_then_success (k : nat) (w : world W) (q : Quote) :
  Z.of_nat k < retries ->
  (forall i, (i < k)%nat ->
             failure (attempt_at url lbl delay (net w) i) <> None) ->
  attempt_at url lbl delay (net w) k = inr q ->
  fetch_loop url lbl retries delay (Z.to_nat retries) 0 w =
  (Returned (Some q),
   mkWorld (net_served url delay (net w) k)
           (log w ++ retry_rounds url delay k ++ [EvGet (get_request url)])).
Proof.
  intros Hk Hfail Hok.
  rewrite (fetch_loop_skip_failures k); [|lia|lia|exact Hfail].
  destruct (Z.to_nat retries - k)%nat as [|todo] eqn:Htodo; [lia|].
  rewrite (fetch_loop_success todo _ _ q).
  - cbn [net log]. rewrite net_served_shift, Nat.add_0_r, <- app_assoc.
    reflexivity.
  - cbn [net]. rewrite attempt_at_shift, Nat.add_0_r. exact Hok.
Qed.

(** Every attempt fails, with [1 <= retries]. *)
Lemma fetch_loop_all_fail (w : world W) :
  1 <= retries ->
  (forall i, (i < Z.to_nat retries)%nat ->
             failure (attempt_at url lbl delay (net w) i) <> None) ->
  exists e,
    attempt_at url lbl delay (net w) (Z.to_nat retries - 1) = inl e /\
    fetch_loop url lbl retries delay (Z.to_nat retries) 0 w =
    (Raised e,
     mkWorld (net_served url delay (net w) (Z.to_nat retries - 1))
             (log w ++ retry_rounds url delay (Z.to_nat retries - 1)
                    ++ [EvGet (get_request url)])).
Proof.
  intros Hpos Hfail.
  set (k := (Z.to_nat retries - 1)%nat).
  assert (Hlast : failure (attempt_at url lbl delay (net w) k) <> None)
    by (apply Hfail; lia).
  destruct (attempt_at url lbl delay (net w) k) as [e|q] eqn:Hk;
    [|now elim Hlast].
  exists e. split; [reflexivity|].
  rewrite (fetch_loop_skip_failures k);
    [|lia|lia|intros i Hi; apply Hfail; lia].
  replace (Z.to_nat retries - k)%nat with 1%nat by lia.
  replace (0 + Z.of_nat k) with (retries - 1) by lia.
  rewrite (fetch_loop_last_failure 0 _ e).
  - cbn [net log]. rewrite net_served_shift, Nat.add_0_r, <- app_assoc.
    reflexivity.
  - cbn [net]. rewrite attempt_at_shift, Nat.add_0_r. exact Hk.
Qed.

End RetryLoop.

Lemma count_app (p : event -> bool) (a b : list event) :
  count p (a ++ b) = (count p a + count p b)%nat.
Proof. unfold count. rewrite filter_app, length_app. reflexivity. Qed.

Lemma count_gets_rounds (url : string) (delay : Z) (k : nat) :
  count is_get (retry_rounds url delay k) = k.
Proof.
  induction k as [|k IH]; [reflexivity|].
  unfold count in *. simpl. now rewrite IH.
Qed.

Lemma count_sleeps_rounds (url : string) (delay : Z) (k : nat) :
  count is_sleep (retry_rounds url delay k) = k.
Proof.
  induction k as [|k IH]; [reflexivity|].
  unfold count in *. simpl. now rewrite IH.
Qed.

Lemma count_attempts (url : string) (delay : Z) (k : nat) :
  let evs := retry_rounds url delay k ++ [EvGet (get_request url)] in
  count is_get evs = S k /\ count is_sleep evs = k.
Proof.
  cbv zeta. rewrite !count_app, count_gets_rounds, count_sleeps_rounds.
  unfold count. simpl. lia.
Qed.

(** ** [fetch_indicator] *)

Section FetchIndicator.
Context {W : Type} `{Upstream W}.

(** C1.  When every one of the [retries >= 1] attempts fails, whatever the
    cause, [fetch_indicator] raises the exception of the last attempt (it
    returns nothing), after exactly [retries] requests with one sleep of
    [delay] between consecutive requests, [retries - 1] sleeps in all. *)
Theorem fetch_indicator_exhausts_retries
        (code lbl : string) (retries delay : Z) (w : world W) :
  1 <= retries ->
  0 <= delay ->
  let url := API_URL_TEMPLATE (quote code) in
  let n := Z.to_nat retries in
  (forall i, (i < n)%nat ->
             failure (attempt_at url lbl delay (net w) i) <> None) ->
  exists (e : exn) (evs : list event),
    attempt_at url lbl delay (net w) (n - 1) = inl e /\
    fetch_indicator code lbl retries delay w =
      (Raised e,
       mkWorld (net_served url delay (net w) (n - 1)) (log w ++ evs)) /\
    evs = retry_rounds url delay (n - 1) ++ [EvGet (get_request url)] /\
    count is_get evs = n /\
    count is_sleep evs = (n - 1)%nat.
Proof.
  intros Hpos Hdelay url n Hfail.
  destruct (fetch_loop_all_fail url lbl retries delay Hdelay w Hpos Hfail)
    as [e [Hlast Hrun]].
  exists e, (retry_rounds url delay (n - 1) ++ [EvGet (get_request url)]).
  destruct (count_attempts url delay (n - 1)) as [Hg Hs].
  repeat split.
  - exact Hlast.
  - exact Hrun.
  - rewrite Hg. subst n. lia.
  - exact Hs.
Qed.

(** C6.  When the first [k < retries] attempts fail and the next one
    succeeds, [fetch_indicator] returns the quote of that attempt after
    exactly [k + 1] requests and [k] sleeps of [delay], one between each
    two consecutive requests. *)
Theorem fetch_indicator_succeeds_after_failures
        (code lbl : string) (retries delay : Z) (w : world W)
        (k : nat) (q : Quote) :
  Z.of_nat k < retries ->
  0 <= delay ->
  let url := API_URL_TEMPLATE (quote code) in
  (forall i, (i < k)%nat ->
             failure (attempt_at url lbl delay (net w) i) <> None) ->
  attempt_at url lbl delay (net w) k = inr q ->
  exists evs : list event,
    fetch_indicator code lbl retries delay w =
      (Returned (Some q),
       mkWorld (net_served url delay (net w) k) (log w ++ evs)) /\
    evs = retry_rounds url delay k ++ [EvGet (get_request url)] /\
    count is_get evs = S k /\
    count is_sleep evs = k.
Proof.
  intros Hk Hdelay url Hfail Hok.
  exists (retry_rounds url delay k ++ [EvGet (get_request url)]).
  destruct (count_attempts url delay k) as [Hg Hs].
  repeat split; try assumption.
  apply (fetch_loop_then_success url lbl retries delay Hdelay k w q Hk Hfail Hok).
Qed.

(** C10.  With [retries <= 0] the loop body never runs: no request is
    made, nothing is raised, and the call returns [None]. *)
Theorem fetch_indicator_no_attempts
        (code lbl : string) (retries delay : Z) (w : world W) :
  retries <= 0 ->
  fetch_indicator code lbl retries delay w = (Returned None, w).
Proof.
  intros Hle. unfold fetch_indicator.
  replace (Z.to_nat retries) with 0%nat by lia.
  reflexivity.
Qed.

End FetchIndicator.

(** Why the delay is taken non-negative above: [time.sleep] raises on a
    negative length, inside the handler, and that exception leaves the
    function after the first request. *)
Lemma fetch_indicator_negative_delay :
  fetch_indicator "in;mfy" "Nifty IT" 3 (-1) (mkWorld (@nil http_result) []) =
  (Raised (ValueError "sleep length must be non-negative"),
   mkWorld [] [EvGet (get_request (API_URL_TEMPLATE (quote "in;mfy")))]).
Proof. vm_compute. reflexivity. Qed.

(** A script of three refused connections: three requests, two sleeps, and
    the third refusal raised. *)
Lemma fetch_indicator_exhausts_retries_witness :
  exists (e : exn) (evs : list event),
    attempt_at (API_URL_TEMPLATE (quote "in;mfy")) "Nifty IT" 1
               (@nil http_result) 2 = inl e /\
    fetch_indicator "in;mfy" "Nifty IT" 3 1 (mkWorld (@nil http_result) []) =
      (Raised e,
       mkWorld (net_served (API_URL_TEMPLATE (quote "in;mfy")) 1
                           (@nil http_result) 2) ([] ++ evs)) /\
    evs = retry_rounds (API_URL_TEMPLATE (quote "in;mfy")) 1 2
          ++ [EvGet (get_request (API_URL_TEMPLATE (quote "in;mfy")))] /\
    count is_get evs = 3%nat /\
    count is_sleep evs = 2%nat.
Proof.
  apply (fetch_indicator_exhausts_retries
           "in;mfy" "Nifty IT" 3 1 (mkWorld (@nil http_result) [])).
  - lia.
  - lia.
  - intros i Hi.
    do 3 (destruct i as [|i]; [vm_compute; discriminate|]).
    vm_compute in Hi. lia.
Defined.

(** Two server errors, then the body of the example. *)
Lemma fetch_indicator_succeeds_after_failures_witness :
  let script := [Response 503 None; GetRaised (RequestException "timeout");
                 ok_json nifty_it_body] in
  let url := API_URL_TEMPLATE (quote "in;mfy") in
  let q := mkQuote "Nifty IT" (FDec false 3421055 (-2))
                   (FDec true 12030 (-2)) (FDec true 35 (-2)) in
  exists evs : list event,
    fetch_indicator "in;mfy" "Nifty IT" 3 1 (mkWorld script []) =
      (Returned (Some q),
       mkWorld (net_served url 1 script 2) ([] ++ evs)) /\
    evs = retry_rounds url 1 2 ++ [EvGet (get_request url)] /\
    count is_get evs = 3%nat /\
    count is_sleep evs = 2%nat.
Proof.
  intros script url q.
  apply (fetch_indicator_succeeds_after_failures
           "in;mfy" "Nifty IT" 3 1 (mkWorld script []) 2 q).
  - lia.
  - lia.
  - intros i Hi.
    do 2 (destruct i as [|i]; [vm_compute; discriminate|]).
    lia.
  - vm_compute. reflexivity.
Defined.

Lemma fetch_indicator_no_attempts_witness :
  fetch_indicator "in;mfy" "Nifty IT" 0 1
                  (mkWorld [ok_json nifty_it_body] []) =
  (Returned None, mkWorld [ok_json nifty_it_body] []).
Proof.
  apply (fetch_indicator_no_attempts
           "in;mfy" "Nifty IT" 0 1 (mkWorld [ok_json nifty_it_body] [])).
  lia.
Defined.

(** ** What [float] accepts *)

Section FloatText.

Let pc : ascii := "%"%char.

Lemma span_digits_spec (l ds rest : list ascii) :
  span_digits l = (ds, rest) ->
  l = ds ++ rest /\ Forall (fun c => is_digit c = true) ds.
Proof.
  revert ds rest. induction l as [|c l IH]; intros ds rest Hs; simpl in Hs.
  - inversion Hs; subst. split; [reflexivity|constructor].
  - destruct (is_digit c) eqn:Hc.
    + destruct (span_digits l) as [ds' rest'] eqn:Hl.
      inversion Hs; subst.
      destruct (IH ds' rest eq_refl) as [-> Hall].
      split; [reflexivity|]. constructor; assumption.
    + inversion Hs; subst. split; [reflexivity|constructor].
Qed.

Lemma digits_no_percent (ds : list ascii) :
  Forall (fun c => is_digit c = true) ds -> ~ In pc ds.
Proof.
  intros Hall Hin. rewrite Forall_forall in Hall.
  specialize (Hall pc Hin). vm_compute in Hall. discriminate.
Qed.

Lemma take_sign_no_percent (l : list ascii) :
  In pc l -> In pc (snd (take_sign l)).
Proof.
  destruct l as [|c r]; [intros []|]. simpl.
  destruct (Ascii.eqb c "-") eqn:Hm;
    [apply Ascii.eqb_eq in Hm; subst; simpl; intros [Hc|Hr];
     [discriminate Hc|exact Hr]|].
  destruct (Ascii.eqb c "+") eqn:Hp;
    [apply Ascii.eqb_eq in Hp; subst; simpl; intros [Hc|Hr];
     [discriminate Hc|exact Hr]|].
  simpl. auto.
Qed.

Lemma lskip_no_percent (l : list ascii) : In pc l -> In pc (lskip l).
Proof.
  induction l as [|c r IH]; [intros []|]. simpl.
  destruct (is_space c) eqn:Hc; [|auto].
  intros [Heq|Hr]; [|auto].
  subst c. vm_compute in Hc. discriminate.
Qed.

Lemma rskip_no_percent (l : list ascii) : In pc l -> In pc (rskip l).
Proof.
  intros Hin. unfold rskip. rewrite <- in_rev.
  apply lskip_no_percent. rewrite <- in_rev. exact Hin.
Qed.

Lemma drop_underscores_no_percent (l : list ascii) :
  forall prev l', drop_underscores prev l = Some l' -> In pc l -> In pc l'.
Proof.
  induction l as [|c r IH]; intros prev l' Hd Hin; [destruct Hin|].
  simpl in Hd.
  destruct (Ascii.eqb c "_") eqn:Hu.
  - apply Ascii.eqb_eq in Hu. subst c.
    destruct Hin as [Heq|Hin]; [discriminate Heq|].
    destruct prev as [p|]; [|discriminate].
    destruct (is_digit p); [|discriminate].
    eapply IH; eassumption.
  - destruct ((match prev with
               | Some p => Ascii.eqb p "_"
               | None => false
               end) && negb (is_digit c)); [discriminate|].
    destruct (drop_underscores (Some c) r) as [r'|] eqn:Hr; [|discriminate].
    simpl in Hd. inversion Hd; subst.
    destruct Hin as [Heq|Hin]; [left; exact Heq|right].
    eapply IH; eassumption.
Qed.

Lemma exponent_no_percent (l : list ascii) (x : Z) :
  exponent l = Some x -> ~ In pc l.
Proof.
  destruct l as [|c r]; [intros _ []|].
  simpl. destruct (Ascii.eqb (to_lower c) "e") eqn:He; [|discriminate].
  destruct (take_sign r) as [eneg r1] eqn:Hsign.
  destruct (span_digits r1) as [ds rest] eqn:Hspan.
  destruct ds as [|d ds]; [discriminate|].
  destruct rest; [|discriminate].
  intros _ [Heq|Hin].
  - subst c. vm_compute in He. discriminate.
  - apply take_sign_no_percent in Hin. rewrite Hsign in Hin. simpl in Hin.
    destruct (span_digits_spec _ _ _ Hspan) as [-> Hall].
    rewrite app_nil_r in Hin.
    exact (digits_no_percent _ Hall Hin).
Qed.

Lemma decimal_no_percent (neg : bool) (body : list ascii) (f : pyfloat) :
  decimal neg body = Some f -> ~ In pc body.
Proof.
  unfold decimal.
  destruct (span_digits body) as [ip r1] eqn:Hip.
  destruct (span_digits_spec _ _ _ Hip) as [-> Hall1].
  intros Hd Hin. apply in_app_or in Hin.
  destruct Hin as [Hin|Hin]; [exact (digits_no_percent _ Hall1 Hin)|].
  destruct r1 as [|c r].
  - destruct Hin.
  - destruct (Ascii.eqb c ".") eqn:Hdot.
    + apply Ascii.eqb_eq in Hdot. subst c.
      destruct (span_digits r) as [fp r2] eqn:Hfp.
      destruct (span_digits_spec _ _ _ Hfp) as [-> Hall2].
      destruct (ip ++ fp); [discriminate|].
      destruct (exponent r2) as [x|] eqn:Hx; [|discriminate].
      destruct Hin as [Heq|Hin]; [discriminate Heq|].
      apply in_app_or in Hin.
      destruct Hin as [Hin|Hin]; [exact (digits_no_percent _ Hall2 Hin)|].
      exact (exponent_no_percent _ _ Hx Hin).
    + destruct (ip ++ []); [discriminate|].
      destruct (exponent (c :: r)) as [x|] eqn:Hx; [|discriminate].
      exact (exponent_no_percent _ _ Hx Hin).
Qed.

Lemma inf_or_nan_no_percent (neg : bool) (body : list ascii) (f : pyfloat) :
  inf_or_nan neg body = Some f -> ~ In pc body.
Proof.
  unfold inf_or_nan. intros Hw Hin.
  assert (Hl : In (to_lower pc) (lower body)) by (apply in_map; exact Hin).
  destruct (list_eq_dec ascii_dec (lower body) (chars "inf")) as [E|_];
    [rewrite E in Hl; vm_compute in Hl; intuition discriminate|].
  destruct (list_eq_dec ascii_dec (lower body) (chars "infinity"))
    as [E|_];
    [rewrite E in Hl; vm_compute in Hl; intuition discriminate|].
  destruct (list_eq_dec ascii_dec (lower body) (chars "nan")) as [E|_];
    [rewrite E in Hl; vm_compute in Hl; intuition discriminate|].
  discriminate.
Qed.

(** No text with a percent sign is a number. *)
Lemma float_no_percent (s : string) (f : pyfloat) :
  float s = Some f -> ~ In pc (chars s).
Proof.
  unfold float. intros Hf Hin.
  destruct (drop_underscores None (chars s)) as [l|] eqn:Hd;
    [|discriminate].
  apply (drop_underscores_no_percent _ _ _ Hd) in Hin.
  apply lskip_no_percent, rskip_no_percent, take_sign_no_percent in Hin.
  destruct (take_sign (rskip (lskip l))) as [neg body].
  simpl in Hin.
  destruct (decimal neg body) as [g|] eqn:Hdec.
  - exact (decimal_no_percent _ _ _ Hdec Hin).
  - exact (inf_or_nan_no_percent _ _ _ Hf Hin).
Qed.

Lemma remove_char_absent (c : ascii) (s : string) :
  ~ In c (chars s) -> remove_char c s = s.
Proof.
  induction s as [|a r IH]; [reflexivity|].
  simpl. intros Hn.
  destruct (Ascii.eqb a c) eqn:Hac.
  - apply Ascii.eqb_eq in Hac. subst. elim Hn. left; reflexivity.
  - f_equal. apply IH. intros Hin. apply Hn. right; exact Hin.
Qed.

Lemma remove_percent_of_stripped (t : string) :
  ~ In pc (chars (strip_trailing_percent t)) ->
  remove_char pc t = strip_trailing_percent t.
Proof.
  induction t as [|a r IH]; [reflexivity|].
  destruct r as [|b r'].
  - unfold pc. simpl.
    destruct (Ascii.eqb a "%") eqn:Ha; intros _; reflexivity.
  - change (strip_trailing_percent (String a (String b r')))
      with (String a (strip_trailing_percent (String b r'))).
    intros Hn.
    change (remove_char pc (String a (String b r')))
      with (if Ascii.eqb a pc then remove_char pc (String b r')
            else String a (remove_char pc (String b r'))).
    destruct (Ascii.eqb a pc) eqn:Ha.
    + apply Ascii.eqb_eq in Ha. subst a. elim Hn. left; reflexivity.
    + f_equal. apply IH. intros Hin. apply Hn. right; exact Hin.
Qed.

(** When the text without its trailing percent sign is a number, removing
    every percent sign, as line 97 does, removes just that one. *)
Lemma float_percent_text (t : string) (z : pyfloat) :
  float (strip_trailing_percent t) = Some z ->
  remove_char "%" t = strip_trailing_percent t.
Proof.
  intros Hz. apply remove_percent_of_stripped.
  exact (float_no_percent _ _ Hz).
Qed.

End FloatText.

(** ** One attempt *)

Section Attempt.
Variables (url lbl : string).

Lemma status_passes_check (status : Z) :
  status_passes status ->
  raise_for_status url status = inr tt.
Proof.
  unfold status_passes, raise_for_status. intros Hs.
  destruct (Z.leb_spec 400 status), (Z.ltb_spec status 600);
    simpl; try reflexivity.
  elim Hs. lia.
Qed.

Lemma read_field_text (d : list (string * pyval)) (key s : string)
      (strip : ascii) (v : pyfloat) :
  dict_get d key = Some (PStr s) ->
  float (remove_char strip s) = Some v ->
  read_field (PDict d) key strip = inr v.
Proof. intros Hk Hf. unfold read_field. now rewrite Hk, Hf. Qed.

Lemma read_field_inv (data : pyval) (key : string) (strip : ascii)
      (v : pyfloat) :
  Ascii.eqb "0" strip = false ->
  read_field data key strip = inr v ->
  exists d, data = PDict d /\ field_is d key strip v.
Proof.
  unfold read_field, field_is. intros Hstrip.
  destruct data as [| | | | |l|d]; try discriminate.
  intros Hr. exists d. split; [reflexivity|].
  destruct (dict_get d key) as [[| | | |s| |]|]; try discriminate.
  - destruct (float (remove_char strip s)); [|discriminate].
    now inversion Hr.
  - assert (E : remove_char strip "0" = "0")
      by (cbn [remove_char]; rewrite Hstrip; reflexivity).
    rewrite E in Hr. vm_compute in Hr. now inversion Hr.
Qed.

Lemma checked_data_inv (parsed data : pyval) :
  checked_data lbl parsed = inr data ->
  exists top, parsed = PDict top /\ dict_get top "data" = Some data.
Proof.
  unfold checked_data.
  destruct parsed as [| | | | |l|top]; try discriminate.
  destruct (dict_get top "data") as [v|] eqn:Hd; [|discriminate].
  intros Hv. exists top. split; [reflexivity|]. rewrite Hd.
  destruct v; inversion Hv; reflexivity.
Qed.

Lemma attempt_body_malformed (r : http_result) :
  malformed_response r ->
  attempt_body url lbl r =
  inl (ValueError ("Invalid JSON response for " ++ lbl)).
Proof.
  intros [status [parsed [-> [Hs Hbad]]]].
  unfold attempt_body. rewrite (status_passes_check _ Hs). simpl.
  destruct Hbad as [Hnd|[d [-> [Hk|Hk]]]].
  - destruct parsed; try reflexivity. now elim (Hnd d).
  - simpl. now rewrite Hk.
  - simpl. now rewrite Hk.
Qed.

Lemma attempt_body_valid (status : Z) (top d : list (string * pyval))
      (p c t : string) (x y z : pyfloat) :
  status_passes status ->
  dict_get top "data" = Some (PDict d) ->
  dict_get d "pricecurrent" = Some (PStr p) ->
  dict_get d "pricechange" = Some (PStr c) ->
  dict_get d "pricepercentchange" = Some (PStr t) ->
  float (remove_char "," p) = Some x ->
  float (remove_char "," c) = Some y ->
  float (strip_trailing_percent t) = Some z ->
  attempt_body url lbl (Response status (Some (PDict top))) =
  inr (mkQuote lbl x y z).
Proof.
  intros Hs Hdata Hp Hc Ht Hx Hy Hz.
  unfold attempt_body. rewrite (status_passes_check _ Hs).
  cbn [bind_attempt checked_data]. rewrite Hdata. cbn [bind_attempt].
  rewrite (read_field_text _ _ _ _ _ Hp Hx). cbn [bind_attempt].
  rewrite (read_field_text _ _ _ _ _ Hc Hy). cbn [bind_attempt].
  rewrite <- (float_percent_text _ _ Hz) in Hz.
  rewrite (read_field_text _ _ _ _ _ Ht Hz). reflexivity.
Qed.

Lemma attempt_body_inv (r : http_result) (q : Quote) :
  attempt_body url lbl r = inr q ->
  exists status top d,
    r = Response status (Some (PDict top)) /\
    dict_get top "data" = Some (PDict d) /\
    label q = lbl /\
    field_is d "pricecurrent" "," (price q) /\
    field_is d "pricechange" "," (change q) /\
    field_is d "pricepercentchange" "%" (pct q).
Proof.
  unfold attempt_body.
  destruct r as [e|status body]; [discriminate|].
  destruct (raise_for_status url status) as [e|[]]; [discriminate|].
  destruct body as [parsed|]; [|discriminate].
  cbn [bind_attempt]. intros Hq.
  destruct (checked_data lbl parsed) as [e|data] eqn:Hcd; [discriminate|].
  cbn [bind_attempt] in Hq.
  destruct (read_field data "pricecurrent" ",") as [e|x] eqn:Hx;
    [discriminate|].
  cbn [bind_attempt] in Hq.
  destruct (read_field data "pricechange" ",") as [e|y] eqn:Hy;
    [discriminate|].
  cbn [bind_attempt] in Hq.
  destruct (read_field data "pricepercentchange" "%") as [e|z] eqn:Hz;
    [discriminate|].
  cbn [bind_attempt] in Hq. inversion Hq; subst q. cbn [label price change pct].
  destruct (read_field_inv _ _ ","%char _ eq_refl Hx) as [d [-> Fx]].
  destruct (read_field_inv _ _ ","%char _ eq_refl Hy) as [d1 [E1 Fy]].
  destruct (read_field_inv _ _ "%"%char _ eq_refl Hz) as [d2 [E2 Fz]].
  inversion E1; inversion E2; subst d1 d2.
  destruct (checked_data_inv _ _ Hcd) as [top [-> Hdata]].
  exists status, top, d. repeat split; assumption.
Qed.

End Attempt.

(** ** Responses and the quote made of them *)

Section Responses.
Context {W : Type} `{Upstream W}.

(** A quote that the loop returns is the quote of one of its attempts. *)
Lemma fetch_loop_returned (url lbl : string) (retries delay : Z) (todo : nat) :
  forall (attempt : Z) (w w' : world W) (q : Quote),
    fetch_loop url lbl retries delay todo attempt w = (Returned (Some q), w') ->
    exists k, (k < todo)%nat /\
              attempt_at url lbl delay (net w) k = inr q.
Proof.
  induction todo as [|todo IH]; intros attempt w w' q Hrun;
    [discriminate|].
  simpl in Hrun. unfold requests_get in Hrun.
  destruct (http_get (get_request url) (net w)) as [r n1] eqn:Hget.
  destruct (attempt_body url lbl r) as [e|q0] eqn:Hr.
  - destruct (attempt <? retries - 1); [|discriminate].
    unfold time_sleep in Hrun.
    destruct (delay <? 0); [discriminate|].
    destruct (IH _ _ _ _ Hrun) as [k [Hk Hq]].
    exists (S k). split; [lia|].
    cbn [net] in Hq. unfold attempt_at, response_at in *.
    cbn [net_after]. rewrite Hget. exact Hq.
  - inversion Hrun; subst. exists 0%nat. split; [lia|].
    unfold attempt_at, response_at. cbn [net_after]. rewrite Hget. exact Hr.
Qed.

(** C4.  When the first response passes the status check and its [data]
    holds the three fields as texts that denote numbers once the commas,
    and the trailing percent sign of the percent change, are removed,
    [fetch_indicator] returns the quote with the label and those three
    numbers, after a single request. *)
Theorem fetch_indicator_valid_data
        (code lbl : string) (retries delay : Z) (w : world W)
        (status : Z) (n1 : W) (top d : list (string * pyval))
        (p c t : string) (x y z : pyfloat) :
  1 <= retries ->
  let url := API_URL_TEMPLATE (quote code) in
  http_get (get_request url) (net w)
    = (Response status (Some (PDict top)), n1) ->
  status_passes status ->
  dict_get top "data" = Some (PDict d) ->
  dict_get d "pricecurrent" = Some (PStr p) ->
  dict_get d "pricechange" = Some (PStr c) ->
  dict_get d "pricepercentchange" = Some (PStr t) ->
  float (remove_char "," p) = Some x ->
  float (remove_char "," c) = Some y ->
  float (strip_trailing_percent t) = Some z ->
  fetch_indicator code lbl retries delay w =
  (Returned (Some (mkQuote lbl x y z)),
   mkWorld n1 (log w ++ [EvGet (get_request url)])).
Proof.
  intros Hpos url Hget Hs Hdata Hp Hc Ht Hx Hy Hz.
  unfold fetch_indicator. fold url.
  destruct (Z.to_nat retries) as [|todo] eqn:Hn; [lia|].
  rewrite (fetch_loop_success url lbl retries delay todo 0 w
                              (mkQuote lbl x y z)).
  - unfold net_served. simpl. rewrite Hget. reflexivity.
  - unfold attempt_at, response_at. simpl. rewrite Hget. simpl.
    exact (attempt_body_valid url lbl status top d p c t x y z
                              Hs Hdata Hp Hc Ht Hx Hy Hz).
Qed.

(** C5.  A response that passes the status check and whose body is no
    mapping, has no [data] item, or a null one, ends its attempt with the
    [ValueError] of line 93; and when every attempt of a call with
    [retries >= 1] receives such a response, the call raises that error
    after exactly [retries] requests and [retries - 1] sleeps. *)
Theorem malformed_response_is_retried
        (code lbl : string) (retries delay : Z) (w : world W)
        (r : http_result) :
  1 <= retries ->
  0 <= delay ->
  let url := API_URL_TEMPLATE (quote code) in
  let n := Z.to_nat retries in
  let err := ValueError ("Invalid JSON response for " ++ lbl) in
  malformed_response r ->
  (forall i, (i < n)%nat ->
             malformed_response (response_at url delay (net w) i)) ->
  attempt_body url lbl r = inl err /\
  (forall i, (i < n)%nat -> attempt_at url lbl delay (net w) i = inl err) /\
  exists evs : list event,
    fetch_indicator code lbl retries delay w =
      (Raised err,
       mkWorld (net_served url delay (net w) (n - 1)) (log w ++ evs)) /\
    evs = retry_rounds url delay (n - 1) ++ [EvGet (get_request url)] /\
    count is_get evs = n /\
    count is_sleep evs = (n - 1)%nat.
Proof.
  intros Hpos Hdelay url n err Hr Hall.
  assert (Hevery : forall i, (i < n)%nat ->
                             attempt_at url lbl delay (net w) i = inl err)
    by (intros i Hi; apply attempt_body_malformed, Hall, Hi).
  split; [apply attempt_body_malformed, Hr|].
  split; [exact Hevery|].
  destruct (fetch_loop_all_fail url lbl retries delay Hdelay w Hpos)
    as [e [Hlast Hrun]].
  { intros i Hi. fold url. rewrite (Hevery i Hi). discriminate. }
  fold url in Hlast, Hrun. fold n in Hlast, Hrun.
  rewrite Hevery in Hlast by lia. inversion Hlast; subst e.
  exists (retry_rounds url delay (n - 1) ++ [EvGet (get_request url)]).
  destruct (count_attempts url delay (n - 1)) as [Hg Hs].
  repeat split.
  - exact Hrun.
  - rewrite Hg. subst n. lia.
  - exact Hs.
Qed.

(** C2, as the code has it.  The three numbers of a quote that
    [fetch_indicator] returns are what [float] reads in the texts of the
    fields of [data], commas (for the percent change, percent signs)
    removed; a field that [data] lacks is read as the text [0] and gives
    zero, it does not fail the attempt.  Nothing is said of finiteness:
    [float] reads [nan] and [inf] as well. *)
Theorem quote_fields_parsed_or_zero
        (code lbl : string) (retries delay : Z) (w w' : world W)
        (q : Quote) :
  fetch_indicator code lbl retries delay w = (Returned (Some q), w') ->
  exists (k : nat) (status : Z) (top d : list (string * pyval)),
    response_at (API_URL_TEMPLATE (quote code)) delay (net w) k
      = Response status (Some (PDict top)) /\
    dict_get top "data" = Some (PDict d) /\
    label q = lbl /\
    field_is d "pricecurrent" "," (price q) /\
    field_is d "pricechange" "," (change q) /\
    field_is d "pricepercentchange" "%" (pct q).
Proof.
  intros Hrun.
  destruct (fetch_loop_returned _ _ _ _ _ _ _ _ _ Hrun) as [k [_ Hk]].
  destruct (attempt_body_inv _ _ _ _ Hk)
    as [status [top [d [Hr [Hdata [Hl [Hp [Hc Ht]]]]]]]].
  exists k, status, top, d. repeat split; assumption.
Qed.

End Responses.

(** The example of the specification: label Nifty IT, price 34210.55,
    change -120.30 and percent change -0.35. *)
Lemma fetch_indicator_valid_data_witness :
  fetch_indicator "in;mfy" "Nifty IT" 3 1
                  (mkWorld [ok_json nifty_it_body] []) =
  (Returned (Some (mkQuote "Nifty IT" (FDec false 3421055 (-2))
                           (FDec true 12030 (-2)) (FDec true 35 (-2)))),
   mkWorld []
           ([] ++ [EvGet (get_request (API_URL_TEMPLATE (quote "in;mfy")))])).
Proof.
  apply (fetch_indicator_valid_data
           "in;mfy" "Nifty IT" 3 1 (mkWorld [ok_json nifty_it_body] [])
           200 []
           [("data",
             PDict [("pricecurrent", PStr "34,210.55");
                    ("pricechange", PStr "-120.30");
                    ("pricepercentchange", PStr "-0.35%")])]
           [("pricecurrent", PStr "34,210.55");
            ("pricechange", PStr "-120.30");
            ("pricepercentchange", PStr "-0.35%")]
           "34,210.55" "-120.30" "-0.35%").
  - lia.
  - reflexivity.
  - unfold status_passes. lia.
  - reflexivity.
  - reflexivity.
  - reflexivity.
  - reflexivity.
  - vm_compute. reflexivity.
  - vm_compute. reflexivity.
  - vm_compute. reflexivity.
Defined.

(** The decimals those three values stand for. *)
Lemma nifty_it_decimals :
  option_map Qred (to_Q (FDec false 3421055 (-2))) = Some (684211 # 20)%Q /\
  option_map Qred (to_Q (FDec true 12030 (-2))) = Some (-1203 # 10)%Q /\
  option_map Qred (to_Q (FDec true 35 (-2))) = Some (-7 # 20)%Q.
Proof. repeat split; vm_compute; reflexivity. Qed.

(** An upstream that always answers with a null [data]. *)
Lemma malformed_response_is_retried_witness :
  let url := API_URL_TEMPLATE (quote "in;mfy") in
  let err := ValueError "Invalid JSON response for Nifty IT" in
  attempt_body url "Nifty IT" (ok_json data_null) = inl err /\
  (forall i, (i < 3)%nat ->
             attempt_at url "Nifty IT" 1 (ok_json data_null) i = inl err) /\
  exists evs : list event,
    fetch_indicator "in;mfy" "Nifty IT" 3 1 (mkWorld (ok_json data_null) []) =
      (Raised err,
       mkWorld (net_served url 1 (ok_json data_null) 2) ([] ++ evs)) /\
    evs = retry_rounds url 1 2 ++ [EvGet (get_request url)] /\
    count is_get evs = 3%nat /\
    count is_sleep evs = 2%nat.
Proof.
  assert (Hnull : malformed_response (ok_json data_null)).
  { exists 200, data_null. split; [reflexivity|]. split.
    - unfold status_passes. lia.
    - right. exists [("data", PNone)]. split; [reflexivity|].
      right. reflexivity. }
  apply (malformed_response_is_retried
           "in;mfy" "Nifty IT" 3 1 (mkWorld (ok_json data_null) [])
           (ok_json data_null)).
  - lia.
  - lia.
  - exact Hnull.
  - intros i Hi.
    do 3 (destruct i as [|i]; [exact Hnull|]).
    vm_compute in Hi. lia.
Defined.

Lemma quote_fields_parsed_or_zero_witness :
  exists (k : nat) (status : Z) (top d : list (string * pyval)),
    response_at (API_URL_TEMPLATE (quote "in;mfy")) 1
                [ok_json no_fields_body] k
      = Response status (Some (PDict top)) /\
    dict_get top "data" = Some (PDict d) /\
    "Nifty IT" = "Nifty IT" /\
    field_is d "pricecurrent" "," (FDec false 0 0) /\
    field_is d "pricechange" "," (FDec false 0 0) /\
    field_is d "pricepercentchange" "%" (FDec false 0 0).
Proof.
  apply (quote_fields_parsed_or_zero
           "in;mfy" "Nifty IT" 3 1
           (mkWorld [ok_json no_fields_body] [])
           (mkWorld []
              [EvGet (get_request (API_URL_TEMPLATE (quote "in;mfy")))])
           (mkQuote "Nifty IT" (FDec false 0 0) (FDec false 0 0)
                    (FDec false 0 0))).
  vm_compute. reflexivity.
Defined.

(** C2, as stated, fails: with none of the three fields in [data] the call
    returns a quote of zeros instead of failing, and the text [nan] gives a
    quote whose price is not finite. *)
Lemma missing_field_gives_zero_quote :
  dict_get [] "pricecurrent" = None /\
  fetch_indicator "in;mfy" "Nifty IT" 3 1
                  (mkWorld [ok_json no_fields_body] []) =
  (Returned (Some (mkQuote "Nifty IT" (FDec false 0 0) (FDec false 0 0)
                           (FDec false 0 0))),
   mkWorld []
           [EvGet (get_request (API_URL_TEMPLATE (quote "in;mfy")))]) /\
  fetch_indicator "in;mfy" "Nifty IT" 3 1
                  (mkWorld [ok_json nan_price_body] []) =
  (Returned (Some (mkQuote "Nifty IT" FNaN (FDec false 15 (-1))
                           (FDec false 1 (-1)))),
   mkWorld []
           [EvGet (get_request (API_URL_TEMPLATE (quote "in;mfy")))]) /\
  is_finite FNaN = false.
Proof. repeat split; vm_compute; reflexivity. Qed.

(** ** The batch *)

Section BatchLoop.
Context {W : Type} `{Upstream W}.

(** The loop of [fetch_indicator] only adds requests and sleeps to the
    log. *)
Lemma fetch_loop_log (url lbl : string) (retries delay : Z) (todo : nat) :
  forall (attempt : Z) (w : world W),
  exists evs,
    log (snd (fetch_loop url lbl retries delay todo attempt w))
      = log w ++ evs /\
    filter is_warning evs = [].
Proof.
  induction todo as [|todo IH]; intros attempt w.
  - exists []. simpl. now rewrite app_nil_r.
  - simpl. unfold requests_get.
    destruct (http_get (get_request url) (net w)) as [r n1].
    destruct (attempt_body url lbl r) as [e|q].
    + destruct (attempt <? retries - 1).
      * unfold time_sleep. destruct (delay <? 0).
        -- exists [EvGet (get_request url)]. simpl. now split.
        -- destruct (IH (attempt + 1)
                        (mkWorld (pause delay n1)
                                 ((log w ++ [EvGet (get_request url)])
                                    ++ [EvSleep delay])))
             as [evs [Hlog Hw]].
           exists (EvGet (get_request url) :: EvSleep delay :: evs).
           cbn [net log] in *. rewrite Hlog, <- !app_assoc. simpl.
           now split.
      * exists [EvGet (get_request url)]. simpl. now split.
    + exists [EvGet (get_request url)]. simpl. now split.
Qed.

(** A loop that still has iterations to run, as many as [range] leaves,
    does not run out: it returns a quote or raises. *)
Lemma fetch_loop_not_none (url lbl : string) (retries delay : Z) (todo : nat) :
  forall (attempt : Z) (w : world W),
    (0 < todo)%nat ->
    attempt + Z.of_nat todo = retries ->
    fst (fetch_loop url lbl retries delay todo attempt w) <> Returned None.
Proof.
  induction todo as [|todo IH]; intros attempt w Hpos Hsum; [lia|].
  simpl. destruct (requests_get url w) as [r w1].
  destruct (attempt_body url lbl r) as [e|q]; [|discriminate].
  destruct (Z.ltb_spec attempt (retries - 1)); [|discriminate].
  destruct (time_sleep delay w1) as [[e'|u] w2]; [discriminate|].
  apply IH; lia.
Qed.

(** What a call with the defaults [retries=3], [delay=1] can give. *)
Lemma fetch_indicator_default (code lbl : string) (w : world W) :
  match fst (fetch_indicator code lbl 3 1 w) with
  | Returned (Some q) => label q = lbl
  | Returned None => False
  | Raised _ => True
  end.
Proof.
  destruct (fetch_indicator code lbl 3 1 w) as [o w'] eqn:Hrun.
  simpl. destruct o as [[q|]|e]; [| |exact I].
  - unfold fetch_indicator in Hrun.
    destruct (fetch_loop_returned _ _ _ _ _ _ _ _ _ Hrun) as [k [_ Hk]].
    destruct (attempt_body_inv _ _ _ _ Hk)
      as [status [top [d [_ [_ [Hl _]]]]]].
    exact Hl.
  - unfold fetch_indicator in Hrun.
    apply (fetch_loop_not_none
             (API_URL_TEMPLATE (quote code)) lbl 3 1 (Z.to_nat 3) 0 w);
      [simpl; lia|reflexivity|].
    now rewrite Hrun.
Qed.

Lemma quotes_of_app (a b : list (option Quote)) :
  quotes_of (a ++ b) = quotes_of a ++ quotes_of b.
Proof.
  induction a as [|[q|] a IH]; simpl; [reflexivity| |exact IH].
  now rewrite IH.
Qed.

Lemma quotes_of_returned (os : list (Indicator * outcome)) :
  quotes_of (returned os) = fetched os.
Proof.
  induction os as [|[ind [[q|]|e]] os IH]; simpl;
    [reflexivity| | |]; now rewrite ?IH.
Qed.

Lemma rows_pd_DataFrame (records : list (option Quote)) :
  rows (pd_DataFrame records) = quotes_of records.
Proof. destruct records; reflexivity. Qed.

(** The loop of [fetch_all_indicators], against the outcomes one by one. *)
Lemma fetch_all_loop_outcomes (inds : list Indicator) :
  forall (records : list (option Quote)) (w : world W),
    fst (fetch_all_loop inds records w)
      = records ++ returned (batch_outcomes inds w) /\
    exists evs,
      log (snd (fetch_all_loop inds records w)) = log w ++ evs /\
      filter is_warning evs = warnings_for (batch_outcomes inds w).
Proof.
  induction inds as [|ind rest IH]; intros records w.
  - simpl. rewrite app_nil_r. split; [reflexivity|].
    exists []. now rewrite app_nil_r.
  - simpl.
    destruct (fetch_loop_log (API_URL_TEMPLATE (quote (ind_code ind)))
                             (ind_label ind) 3 1 (Z.to_nat 3) 0 w)
      as [evs1 [Hlog1 Hw1]].
    fold (fetch_indicator (ind_code ind) (ind_label ind) 3 1 w) in Hlog1.
    destruct (fetch_indicator (ind_code ind) (ind_label ind) 3 1 w)
      as [[r|e] w1]; simpl in Hlog1.
    + destruct (IH (records ++ [r]) w1) as [Hrec [evs [Hlog Hw]]].
      split; [rewrite Hrec, <- app_assoc; reflexivity|].
      exists (evs1 ++ evs). rewrite Hlog, Hlog1, <- app_assoc.
      split; [reflexivity|].
      rewrite filter_app, Hw1, Hw. reflexivity.
    + destruct (IH records (st_warning (ind_label ind) e w1))
        as [Hrec [evs [Hlog Hw]]].
      split; [exact Hrec|].
      exists (evs1 ++ EvWarning (ind_label ind) e :: evs).
      rewrite Hlog.
      change (log (st_warning (ind_label ind) e w1))
        with (log w1 ++ [EvWarning (ind_label ind) e]).
      rewrite Hlog1, <- !app_assoc. split; [reflexivity|].
      rewrite filter_app, Hw1. simpl. now rewrite Hw.
Qed.

Lemma batch_outcomes_inds (inds : list Indicator) :
  forall w : world W, map fst (batch_outcomes inds w) = inds.
Proof.
  induction inds as [|ind rest IH]; intros w; [reflexivity|].
  simpl.
  destruct (fetch_indicator (ind_code ind) (ind_label ind) 3 1 w) as [o w1].
  simpl. now rewrite IH.
Qed.

(** Every instrument of the batch ends with a quote under its label or
    with an exception; the quotes and the warnings are as many as the
    successes and the failures, in the order of the instruments. *)
Lemma batch_outcomes_shape (inds : list Indicator) :
  forall w : world W,
    let os := batch_outcomes inds w in
    map label (fetched os)
      = map (fun io => ind_label (fst io))
            (filter (fun io => negb (failed io)) os) /\
    (List.length (fetched os) + List.length (filter failed os)
     = List.length inds)%nat /\
    List.length (warnings_for os) = List.length (filter failed os).
Proof.
  induction inds as [|ind rest IH]; intros w; [now simpl|].
  simpl.
  pose proof (fetch_indicator_default (ind_code ind) (ind_label ind) w)
    as Hshape.
  destruct (fetch_indicator (ind_code ind) (ind_label ind) 3 1 w)
    as [[[q|]|e] w1]; simpl in Hshape; [| destruct Hshape |].
  - destruct (IH w1) as [Hl [Hn Hw]].
    cbn [filter failed snd fst negb map fetched warnings_for List.length].
    rewrite Hl, Hshape.
    repeat split; [lia|exact Hw].
  - destruct (IH (st_warning (ind_label ind) e w1)) as [Hl [Hn Hw]].
    cbn [filter failed snd fst negb map fetched warnings_for List.length].
    repeat split; [exact Hl|lia|lia].
Qed.

(** C3.  Over any list of [N] instruments of which [M] end in an
    exception, the batch runs to its end and returns a frame of exactly
    [N - M] rows, the quotes of the instruments that did not fail, in
    the order of the list; it emits exactly one warning for each failed
    instrument, and no other. *)
Theorem fetch_all_partial_failure (inds : list Indicator) (w : world W) :
  let os := batch_outcomes inds w in
  let M := List.length (filter failed os) in
  let df := fst (fetch_all_over inds w) in
  let w' := snd (fetch_all_over inds w) in
  map fst os = inds /\
  rows df = fetched os /\
  List.length (rows df) = (List.length inds - M)%nat /\
  map label (rows df)
    = map (fun io => ind_label (fst io))
          (filter (fun io => negb (failed io)) os) /\
  exists evs,
    log w' = log w ++ evs /\
    filter is_warning evs = warnings_for os /\
    count is_warning evs = M.
Proof.
  intros os M df w'.
  destruct (fetch_all_loop_outcomes inds [] w) as [Hrec [evs [Hlog Hw]]].
  destruct (batch_outcomes_shape inds w) as [Hl [Hn Hc]].
  fold os in Hrec, Hw, Hl, Hn, Hc.
  assert (Hrows : rows df = fetched os).
  { subst df. unfold fetch_all_over.
    destruct (fetch_all_loop inds [] w) as [records w1].
    simpl in *. rewrite rows_pd_DataFrame, Hrec.
    apply quotes_of_returned. }
  split; [apply batch_outcomes_inds|].
  split; [exact Hrows|].
  split; [rewrite Hrows; subst M; lia|].
  split; [rewrite Hrows; exact Hl|].
  exists evs. subst w'. unfold fetch_all_over.
  destruct (fetch_all_loop inds [] w) as [records w1]. simpl in *.
  split; [exact Hlog|].
  split; [exact Hw|].
  unfold count. rewrite Hw. exact Hc.
Qed.

End BatchLoop.

(** Two instruments, the first of which times out three times: one row,
    one warning. *)
Lemma fetch_all_example :
  let timeout := GetRaised (RequestException "timeout") in
  let run :=
    fetch_all_over [mkIndicator "in;cjn" "Nifty Commodities";
                    mkIndicator "in;mfy" "Nifty IT"]
                   (mkWorld [timeout; timeout; timeout;
                             ok_json nifty_it_body] []) in
  fst run = mkFrame quote_columns [quote_it] /\
  filter is_warning (log (snd run))
    = [EvWarning "Nifty Commodities" (RequestException "timeout")] /\
  count is_get (log (snd run)) = 4%nat /\
  count is_sleep (log (snd run)) = 2%nat.
Proof. repeat split; vm_compute; reflexivity. Qed.

(** ** The cache *)

Section Cache.
Context {W : Type} `{Upstream W}.

Lemma replayed_messages_not_network (evs : list event) :
  filter is_network (filter is_warning evs) = [].
Proof.
  induction evs as [|[r|d|l e] evs IH]; simpl; auto.
Qed.

(** A call that finds no entry, or an expired one, runs the function once
    and stores its value with the time of the call. *)
Lemma cache_data_miss (ttl : Z) (f : world W -> DataFrame * world W)
      (now : Z) (c : option cache_entry) (w : world W) :
  match c with
  | Some e => created_at e + ttl <= now
  | None => True
  end ->
  cache_data ttl f now c w =
  (fst (f w),
   Some (mkEntry (fst (f w))
                 (filter is_warning
                         (skipn (List.length (log w)) (log (snd (f w)))))
                 now),
   snd (f w)).
Proof.
  intros Hc. unfold cache_data.
  destruct c as [e|].
  - destruct (Z.ltb_spec now (created_at e + ttl)); [lia|].
    destruct (f w); reflexivity.
  - destruct (f w); reflexivity.
Qed.

(** A call that finds a live entry serves it: the function is not run,
    the upstream is untouched and the log gains the replayed page
    elements only. *)
Lemma cache_data_hit (ttl : Z) (f : world W -> DataFrame * world W)
      (now : Z) (e : cache_entry) (w : world W) :
  now < created_at e + ttl ->
  cache_data ttl f now (Some e) w =
  (value e, Some e, mkWorld (net w) (log w ++ messages e)).
Proof.
  intros Hlive. unfold cache_data.
  destruct (Z.ltb_spec now (created_at e + ttl)); [reflexivity|lia].
Qed.

(** C7.  Take a call at [t1] that has to fetch (no entry, or an expired
    one), a second call less than 300 time units later and a third when
    the entry is more than 300 old.  The first call is one run of the
    batch; the second returns the stored frame, leaves the entry and the
    upstream as they are and adds no request and no sleep to the log; the
    third is one more run of the batch, and the entry it leaves is a new
    one, holding the new frame and the time of that call. *)
Theorem fetch_all_indicators_ttl
        (c0 : option cache_entry) (w0 : world W) (t1 t2 t3 : Z) :
  match c0 with
  | Some e => created_at e + 300 <= t1
  | None => True
  end ->
  t2 - t1 < 300 ->
  300 < t3 - t1 ->
  let '(v1, c1, w1) := fetch_all_indicators t1 c0 w0 in
  let '(v2, c2, w2) := fetch_all_indicators t2 c1 w1 in
  let '(v3, c3, w3) := fetch_all_indicators t3 c2 w2 in
  (v1, w1) = fetch_all_indicators_body w0 /\
  (v2 = v1 /\ c2 = c1 /\ net w2 = net w1 /\
   filter is_network (log w2) = filter is_network (log w1)) /\
  (v3, w3) = fetch_all_indicators_body w2 /\
  c3 = Some (mkEntry v3
                     (filter is_warning
                             (skipn (List.length (log w2)) (log w3)))
                     t3).
Proof.
  intros Hfresh H12 H13. unfold fetch_all_indicators.
  rewrite (cache_data_miss 300 _ t1 c0 w0 Hfresh).
  destruct (fetch_all_indicators_body w0) as [v1 w1] eqn:Hrun1.
  cbn [fst snd].
  rewrite cache_data_hit by (cbn [created_at]; lia).
  cbn [value messages].
  rewrite cache_data_miss by (cbn [created_at]; lia).
  match goal with
  | |- context [fetch_all_indicators_body ?w] =>
      destruct (fetch_all_indicators_body w) as [v3 w3] eqn:Hrun3
  end.
  cbn [fst snd net log].
  repeat split.
  rewrite filter_app, replayed_messages_not_network, app_nil_r.
  reflexivity.
Qed.

End Cache.

(** Calls at times 0, 120 and 301 against a script with a single good
    response. *)
Lemma fetch_all_indicators_ttl_witness :
  let '(v1, c1, w1) :=
    fetch_all_indicators 0 None (mkWorld [ok_json nifty_it_body] []) in
  let '(v2, c2, w2) := fetch_all_indicators 120 c1 w1 in
  let '(v3, c3, w3) := fetch_all_indicators 301 c2 w2 in
  (v1, w1) = fetch_all_indicators_body (mkWorld [ok_json nifty_it_body] []) /\
  (v2 = v1 /\ c2 = c1 /\ net w2 = net w1 /\
   filter is_network (log w2) = filter is_network (log w1)) /\
  (v3, w3) = fetch_all_indicators_body w2 /\
  c3 = Some (mkEntry v3
                     (filter is_warning
                             (skipn (List.length (log w2)) (log w3)))
                     301).
Proof.
  apply (fetch_all_indicators_ttl
           None (mkWorld [ok_json nifty_it_body] []) 0 120 301).
  - exact I.
  - lia.
  - lia.
Defined.

(** ** The filters of the page *)

Section Filters.

Lemma re_compile_plain (p : list ascii) :
  forallb (fun c => negb (re_special c)) p = true ->
  re_compile p = Some (map Lit p).
Proof.
  induction p as [|c p IH]; [reflexivity|].
  simpl forallb. intros Hp. apply andb_prop in Hp. destruct Hp as [Hc Hp].
  cbn [re_compile map]. rewrite (IH Hp).
  apply negb_true_iff in Hc. rewrite Hc.
  unfold re_special in Hc. cbn [existsb] in Hc.
  apply orb_false_elim in Hc. destruct Hc as [Hdot _].
  now rewrite Hdot.
Qed.

Lemma match_here_literals (p l : list ascii) :
  match_here (map Lit p) l = starts_with Ascii.eqb (lower p) (lower l).
Proof.
  revert l. induction p as [|a p IH]; intros l; [reflexivity|].
  destruct l as [|c l]; [reflexivity|].
  cbn [map match_here lower starts_with atom_matches].
  fold (lower p). fold (lower l). now rewrite IH.
Qed.

(** On a pattern of plain characters, the search is the test for a
    substring, both sides in lower case. *)
Lemma re_search_literals (p l : list ascii) :
  re_search (map Lit p) l = occurs_in (lower p) (lower l).
Proof.
  induction l as [|c l IH].
  - simpl. now rewrite match_here_literals.
  - cbn [re_search lower map occurs_in]. fold (lower l).
    rewrite <- IH. f_equal.
    apply (match_here_literals p (c :: l)).
Qed.

Lemma filter_twice {A : Type} (f g : A -> bool) (l : list A) :
  filter g (filter f l) = filter (fun x => f x && g x) l.
Proof.
  induction l as [|x l IH]; [reflexivity|].
  simpl. destruct (f x); simpl; [destruct (g x)|]; now rewrite IH.
Qed.

Lemma filter_all {A : Type} (f : A -> bool) (l : list A) :
  filter (fun x => f x && true) l = filter f l.
Proof.
  apply filter_ext. intros x. apply andb_true_r.
Qed.

(** The example engine is as documented. *)
Lemma fragment_engine_documented : re_documented fragment_engine.
Proof.
  unfold re_documented, fragment_engine. cbn [re_compiles re_found].
  split; [|split].
  - intros pat atoms Hc. now rewrite Hc.
  - intros pat atoms text Hc _ _. now rewrite Hc.
  - intros p1 p2 text H1 H2 Hl. unfold re_plain in *.
    rewrite (re_compile_plain _ H1), (re_compile_plain _ H2).
    rewrite !re_search_literals. now rewrite Hl.
Qed.

Lemma quotes_of_somes (l : list Quote) : quotes_of (map Some l) = l.
Proof. induction l as [|x l IH]; [reflexivity|]. cbn [map quotes_of]. now rewrite IH. Qed.

Section WithEngine.
Context {E : Regex}.

(** The two filters on a frame built from quotes, by cases on the query. *)
Lemma apply_filters_on_quotes
      (qs : list Quote) (selection : list string) (query : string) :
  qs <> [] ->
  selection <> [] ->
  apply_filters selection query (pd_DataFrame (map Some qs)) =
  match query with
  | EmptyString =>
      Done (mkFrame quote_columns
                    (filter (fun q => isin selection (label q)) qs))
  | String _ _ =>
      if re_compiles query
      then Done (mkFrame quote_columns
                         (filter (fun q => isin selection (label q)
                                           && re_found query (label q)) qs))
      else Uncaught (ReError query)
  end.
Proof.
  intros Hqs Hsel.
  destruct qs as [|q0 qs']; [now elim Hqs|].
  destruct selection as [|s0 sel']; [now elim Hsel|].
  unfold apply_filters, filter_selection, select_rows.
  cbn [map pd_DataFrame columns rows quote_columns existsb String.eqb
       Ascii.eqb Bool.eqb orb andb].
  change (quotes_of (Some q0 :: map Some qs'))
    with (quotes_of (map Some (q0 :: qs'))).
  rewrite quotes_of_somes. unfold filter_search.
  destruct query as [|c query']; [reflexivity|].
  cbn [columns rows quote_columns existsb String.eqb
       Ascii.eqb Bool.eqb orb andb].
  destruct (re_compiles (String c query')); [|reflexivity].
  unfold select_rows.
  cbn [columns rows quote_columns existsb String.eqb
       Ascii.eqb Bool.eqb orb andb].
  now rewrite filter_twice.
Qed.

(** C8, as the code has it.  On a frame built from at least one quote,
    with a selection that is not empty, and for every query: an empty
    query leaves the quotes whose label is in the selection; a query that
    compiles leaves the quotes whose label is in the selection and in
    whose label the query, a regular expression searched without regard to
    case, is found; a query that does not compile makes the filter raise.
    The quotes left are in their order.  For an ASCII query without
    special characters over ASCII labels, with an engine as documented,
    this is: the quotes whose label is in the selection and contains the
    query as a substring without regard to case. *)
Theorem apply_filters_selection_and_query
        (qs : list Quote) (selection : list string) (query : string) :
  qs <> [] ->
  selection <> [] ->
  let df := pd_DataFrame (map Some qs) in
  let selected := fun q : Quote => isin selection (label q) in
  (query = EmptyString ->
   apply_filters selection query df
   = Done (mkFrame quote_columns (filter selected qs))) /\
  (query <> EmptyString -> re_compiles query = true ->
   apply_filters selection query df
   = Done (mkFrame quote_columns
                   (filter (fun q => selected q && re_found query (label q))
                           qs))) /\
  (query <> EmptyString -> re_compiles query = false ->
   apply_filters selection query df = Uncaught (ReError query)) /\
  (re_documented E ->
   plain_query query = true ->
   is_ascii query = true ->
   Forall (fun q => is_ascii (label q) = true) qs ->
   apply_filters selection query df
   = Done (mkFrame quote_columns (spec_filter selection query qs))).
Proof.
  intros Hqs Hsel df selected. subst df selected.
  pose proof (apply_filters_on_quotes qs selection query Hqs Hsel) as Hrun.
  repeat split.
  - intros ->. exact Hrun.
  - intros Hne Hc. destruct query as [|c q]; [now elim Hne|].
    now rewrite Hc in Hrun.
  - intros Hne Hc. destruct query as [|c q]; [now elim Hne|].
    now rewrite Hc in Hrun.
  - intros [Hcompiles [Hfound _]] Hplain Hascii Hlabels.
    rewrite Hrun. unfold spec_filter.
    destruct query as [|c q]; [now rewrite filter_all|].
    unfold plain_query in Hplain.
    pose proof (re_compile_plain _ Hplain) as Hatoms.
    rewrite (Hcompiles _ _ Hatoms). do 2 f_equal.
    apply filter_ext_in. intros r Hin. f_equal.
    rewrite Forall_forall in Hlabels.
    rewrite (Hfound _ _ (label r) Hatoms Hascii (Hlabels r Hin)).
    unfold contains_ci. apply re_search_literals.
Qed.

(** With an engine as documented, the query [.] keeps every label that is
    not empty, dot or no dot. *)
Lemma dot_query_keeps_label :
  re_documented E ->
  apply_filters ["Nifty IT"] "." (pd_DataFrame [Some quote_it])
  = Done (mkFrame quote_columns [quote_it]).
Proof.
  intros [Hcompiles [Hfound _]].
  change (pd_DataFrame [Some quote_it])
    with (pd_DataFrame (map Some [quote_it])).
  rewrite (apply_filters_on_quotes [quote_it] ["Nifty IT"] ".");
    [|discriminate|discriminate].
  rewrite (Hcompiles "." [AnyChar] eq_refl).
  cbn [filter quote_it label isin existsb String.eqb Ascii.eqb Bool.eqb
       andb orb].
  now rewrite (Hfound "." [AnyChar] "Nifty IT" eq_refl eq_refl eq_refl).
Qed.

(** A frame that keeps its columns and loses all its rows to the filters
    gets the warning of line 170. *)
Lemma render_no_rows_left (selection : list string) (query : string)
      (df df' : DataFrame) :
  apply_filters selection query df = Done df' ->
  rows df' = [] ->
  render selection query df = NoDataWarning.
Proof.
  intros Hf Hr. unfold render, df_empty. rewrite Hf, Hr.
  destruct (columns df'); reflexivity.
Qed.

(** C9, where the code departs from it.  With every request refused the
    batch returns the frame without columns; an active selection or query
    then raises [KeyError] at line 164 or 167, before line 169 is reached.
    Without any filter the same frame gets the warning of line 170. *)
Theorem render_crashes_on_frame_without_columns :
  fst (fetch_all_indicators_body (mkWorld (@nil http_result) []))
    = mkFrame [] [] /\
  render ["Nifty IT"] EmptyString (mkFrame [] []) = Crash (KeyError "label") /\
  render [] "IT" (mkFrame [] []) = Crash (KeyError "label") /\
  render [] EmptyString (mkFrame [] []) = NoDataWarning.
Proof.
  split; [vm_compute; reflexivity|].
  repeat split; reflexivity.
Qed.

End WithEngine.

End Filters.

(** Both labels selected, the query [it], with the example engine: the IT
    quote stays, as found by the engine and as a substring. *)
Lemma apply_filters_selection_and_query_witness :
  apply_filters (E := fragment_engine) ["Nifty IT"; "Nifty Auto"] "it"
                (pd_DataFrame (map Some [quote_it; quote_auto]))
  = Done (mkFrame quote_columns
            (filter (fun q =>
                       isin ["Nifty IT"; "Nifty Auto"] (label q) &&
                       re_found (Regex := fragment_engine) "it" (label q))
                    [quote_it; quote_auto])) /\
  apply_filters (E := fragment_engine) ["Nifty IT"; "Nifty Auto"] "it"
                (pd_DataFrame (map Some [quote_it; quote_auto]))
  = Done (mkFrame quote_columns
            (spec_filter ["Nifty IT"; "Nifty Auto"] "it"
                         [quote_it; quote_auto])).
Proof.
  destruct (apply_filters_selection_and_query
              (E := fragment_engine)
              [quote_it; quote_auto] ["Nifty IT"; "Nifty Auto"] "it")
    as [_ [Hfound [_ Hsub]]].
  - discriminate.
  - discriminate.
  - split.
    + apply Hfound; [discriminate|reflexivity].
    + apply Hsub.
      * exact fragment_engine_documented.
      * reflexivity.
      * reflexivity.
      * repeat constructor.
Defined.

(** What that example keeps. *)
Lemma apply_filters_example :
  apply_filters (E := fragment_engine) ["Nifty IT"; "Nifty Auto"] "it"
                (pd_DataFrame (map Some [quote_it; quote_auto]))
  = Done (mkFrame quote_columns [quote_it]).
Proof. vm_compute. reflexivity. Qed.

(** C8, as stated, fails: the query [.] keeps a label that has no dot in
    it (with the example engine here, and with every engine as documented
    by [dot_query_keeps_label]), and on the frame built from no record the
    selection filter raises instead of returning the empty set. *)
Lemma dot_query_keeps_label_without_dot :
  apply_filters (E := fragment_engine) ["Nifty IT"] "."
                (pd_DataFrame [Some quote_it])
    = Done (mkFrame quote_columns [quote_it]) /\
  spec_filter ["Nifty IT"] "." [quote_it] = [] /\
  apply_filters (E := fragment_engine) ["Nifty IT"] EmptyString
                (pd_DataFrame [])
    = Uncaught (KeyError "label").
Proof. repeat split; vm_compute; reflexivity. Qed.

(* ================================================================== *)
(** * Further properties of the code *)
(* ================================================================== *)

Import Cards Reruns.

(** ** What a call puts on the network *)

Section Traffic.
Context {W : Type} `{Upstream W}.

Lemma fetch_loop_step (url lbl : string) (retries delay : Z) (todo : nat)
      (attempt : Z) (w : world W) :
  fetch_loop url lbl retries delay (S todo) attempt w =
  let '(r, w1) := requests_get url w in
  match attempt_body url lbl r with
  | inr q => (Returned (Some q), w1)
  | inl e =>
      if attempt <? retries - 1 then
        match time_sleep delay w1 with
        | (inr _, w2) => fetch_loop url lbl retries delay todo (attempt + 1) w2
        | (inl e', w2) => (Raised e', w2)
        end
      else (Raised e, w1)
  end.
Proof. reflexivity. Qed.

(** A loop that has iterations to run leaves [k] rounds of request and
    sleep and one last request, whatever the upstream and the delay. *)
Lemma fetch_loop_events (url lbl : string) (retries delay : Z) (todo : nat) :
  forall (attempt : Z) (w : world W),
    attempt + Z.of_nat (S todo) = retries ->
    exists k, (k <= todo)%nat /\
      log (snd (fetch_loop url lbl retries delay (S todo) attempt w))
        = log w ++ retry_rounds url delay k ++ [EvGet (get_request url)].
Proof.
  induction todo as [|todo IH]; intros attempt w Hsum.
  - exists 0%nat. split; [lia|].
    simpl. unfold requests_get.
    destruct (http_get (get_request url) (net w)) as [r n1].
    destruct (attempt_body url lbl r) as [e|q]; [|reflexivity].
    destruct (Z.ltb_spec attempt (retries - 1)); [lia|reflexivity].
  - rewrite fetch_loop_step. unfold requests_get.
    destruct (http_get (get_request url) (net w)) as [r n1].
    destruct (attempt_body url lbl r) as [e|q].
    + destruct (attempt <? retries - 1).
      * unfold time_sleep. destruct (delay <? 0).
        -- exists 0%nat. split; [lia|reflexivity].
        -- destruct (IH (attempt + 1)
                        (mkWorld (pause delay n1)
                                 ((log w ++ [EvGet (get_request url)])
                                    ++ [EvSleep delay])))
             as [k [Hk Hlog]]; [lia|].
           exists (S k). split; [lia|].
           cbn [net log]. rewrite Hlog. cbn [log retry_rounds].
           rewrite <- !app_assoc. reflexivity.
      * exists 0%nat. split; [lia|reflexivity].
    + exists 0%nat. split; [lia|reflexivity].
Qed.

(** X1.  Whatever the upstream answers and whatever [retries] and [delay]
    are, a call of [fetch_indicator] puts on the network nothing at all
    (when [retries <= 0]) or [k < retries] rounds of a request and a sleep
    of [delay] followed by one last request: every request is the same
    GET, there are at most [retries] of them, and the call never ends on a
    sleep. *)
Theorem fetch_indicator_traffic
        (code lbl : string) (retries delay : Z) (w : world W) :
  let url := API_URL_TEMPLATE (quote code) in
  let w' := snd (fetch_indicator code lbl retries delay w) in
  (retries <= 0 /\ w' = w) \/
  (exists k : nat,
      Z.of_nat k < retries /\
      log w' = log w ++ retry_rounds url delay k ++ [EvGet (get_request url)]).
Proof.
  intros url w'. subst w'. unfold fetch_indicator. fold url.
  destruct (Z.to_nat retries) as [|todo] eqn:Hn.
  - left. split; [lia|reflexivity].
  - right.
    destruct (fetch_loop_events url lbl retries delay todo 0 w) as [k [Hk Hlog]];
      [lia|].
    exists k. split; [lia|exact Hlog].
Qed.

(** With the defaults, one instrument costs one to three requests and one
    sleep less than requests. *)
Lemma fetch_indicator_default_traffic (code lbl : string) (w : world W) :
  exists evs,
    log (snd (fetch_indicator code lbl 3 1 w)) = log w ++ evs /\
    filter is_warning evs = [] /\
    count is_get evs = S (count is_sleep evs) /\
    (count is_get evs <= 3)%nat.
Proof.
  unfold fetch_indicator.
  destruct (fetch_loop_events (API_URL_TEMPLATE (quote code)) lbl 3 1 2 0 w)
    as [k [Hk Hlog]]; [reflexivity|].
  change (Z.to_nat 3) with 3%nat.
  exists (retry_rounds (API_URL_TEMPLATE (quote code)) 1 k
            ++ [EvGet (get_request (API_URL_TEMPLATE (quote code)))]).
  split; [exact Hlog|].
  destruct (count_attempts (API_URL_TEMPLATE (quote code)) 1 k) as [Hg Hs].
  cbv zeta in Hg, Hs. rewrite Hg, Hs.
  split; [|split; [reflexivity|lia]].
  rewrite filter_app. simpl. rewrite app_nil_r.
  clear. induction k as [|k IH]; [reflexivity|exact IH].
Qed.

Lemma fetch_all_loop_traffic (inds : list Indicator) :
  forall (records : list (option Quote)) (w : world W),
  exists evs,
    log (snd (fetch_all_loop inds records w)) = log w ++ evs /\
    count is_get evs = (count is_sleep evs + List.length inds)%nat /\
    (count is_get evs <= 3 * List.length inds)%nat.
Proof.
  induction inds as [|ind rest IH]; intros records w.
  - exists []. simpl. rewrite app_nil_r. repeat split; reflexivity.
  - cbn [fetch_all_loop].
    destruct (fetch_indicator_default_traffic (ind_code ind) (ind_label ind) w)
      as [evs1 [Hlog1 [_ [Hg1 Hb1]]]].
    destruct (fetch_indicator (ind_code ind) (ind_label ind) 3 1 w)
      as [[r|e] w1]; cbn [snd] in Hlog1.
    + destruct (IH (records ++ [r]) w1) as [evs [Hlog [Hg Hb]]].
      exists (evs1 ++ evs). rewrite Hlog, Hlog1, <- app_assoc.
      split; [reflexivity|].
      rewrite !count_app. cbn [List.length]. lia.
    + destruct (IH records (st_warning (ind_label ind) e w1))
        as [evs [Hlog [Hg Hb]]].
      exists (evs1 ++ EvWarning (ind_label ind) e :: evs).
      rewrite Hlog.
      change (log (st_warning (ind_label ind) e w1))
        with (log w1 ++ [EvWarning (ind_label ind) e]).
      rewrite Hlog1, <- !app_assoc. split; [reflexivity|].
      rewrite !count_app.
      change (EvWarning (ind_label ind) e :: evs)
        with ([EvWarning (ind_label ind) e] ++ evs).
      rewrite !count_app.
      change (count is_get [EvWarning (ind_label ind) e]) with 0%nat.
      change (count is_sleep [EvWarning (ind_label ind) e]) with 0%nat.
      cbn [List.length]. lia.
Qed.

(** X2.  A batch over [N] instruments makes at least [N] and at most [3 N]
    requests, whatever the upstream does, and sleeps exactly once less
    than it requests for each instrument: requests = sleeps + [N]. *)
Theorem fetch_all_traffic (inds : list Indicator) (w : world W) :
  exists evs,
    log (snd (fetch_all_over inds w)) = log w ++ evs /\
    count is_get evs = (count is_sleep evs + List.length inds)%nat /\
    (List.length inds <= count is_get evs <= 3 * List.length inds)%nat.
Proof.
  destruct (fetch_all_loop_traffic inds [] w) as [evs [Hlog [Hg Hb]]].
  exists evs. unfold fetch_all_over.
  destruct (fetch_all_loop inds [] w) as [records w1]. cbn [snd] in *.
  split; [exact Hlog|]. split; [exact Hg|lia].
Qed.

End Traffic.

(** ** The frame of the batch *)

Section BatchFrame.
Context {W : Type} `{Upstream W} {E : Regex}.

Lemma fetch_all_frame (inds : list Indicator) (w : world W) :
  fst (fetch_all_over inds w)
  = pd_DataFrame (returned (batch_outcomes inds w)).
Proof.
  unfold fetch_all_over.
  destruct (fetch_all_loop_outcomes inds [] w) as [Hrec _].
  destruct (fetch_all_loop inds [] w) as [records w1].
  cbn [fst] in *. now rewrite Hrec.
Qed.

Lemma returned_all_failed (os : list (Indicator * outcome)) :
  forallb failed os = true -> returned os = [].
Proof.
  induction os as [|[ind [r|e]] os IH]; [reflexivity|discriminate|].
  cbn [forallb failed snd andb returned]. exact IH.
Qed.

Lemma returned_some_success (os : list (Indicator * outcome)) :
  forallb failed os = false -> returned os <> [].
Proof.
  induction os as [|[ind [r|e]] os IH]; [discriminate|discriminate|].
  cbn [forallb failed snd andb returned]. exact IH.
Qed.

(** No instrument of a batch contributes [None]. *)
Lemma returned_quotes (inds : list Indicator) :
  forall w : world W,
    Forall (fun r => r <> None) (returned (batch_outcomes inds w)).
Proof.
  induction inds as [|ind rest IH]; intros w; [constructor|].
  cbn [batch_outcomes].
  pose proof (fetch_indicator_default (ind_code ind) (ind_label ind) w)
    as Hshape.
  destruct (fetch_indicator (ind_code ind) (ind_label ind) 3 1 w)
    as [[[q|]|e] w1]; cbn [fst] in Hshape; cbn [returned].
  - constructor; [discriminate|apply IH].
  - destruct Hshape.
  - apply IH.
Qed.

Lemma NoDup_map_filter {A B : Type} (g : A -> B) (p : A -> bool)
      (l : list A) :
  NoDup (map g l) -> NoDup (map g (filter p l)).
Proof.
  induction l as [|a l IH]; intros Hnd; [constructor|].
  cbn [map] in Hnd. inversion Hnd as [|x xs Hnotin Hrest]; subst.
  cbn [filter]. destruct (p a); [|exact (IH Hrest)].
  cbn [map]. constructor; [|exact (IH Hrest)].
  intros Hin. apply Hnotin.
  apply in_map_iff in Hin. destruct Hin as [b [Hb Hinb]].
  apply filter_In in Hinb. apply in_map_iff. exists b. tauto.
Qed.

(** X3.  When the labels of the instruments are pairwise distinct, so are
    the labels of the rows of the frame the batch returns, whatever the
    upstream does: no label appears twice. *)
Theorem fetch_all_labels_distinct (inds : list Indicator) (w : world W) :
  NoDup (map ind_label inds) ->
  NoDup (map label (rows (fst (fetch_all_over inds w)))).
Proof.
  intros Hnd.
  rewrite fetch_all_frame, rows_pd_DataFrame, quotes_of_returned.
  destruct (batch_outcomes_shape inds w) as [Hl _]. cbv zeta in Hl.
  rewrite Hl. apply NoDup_map_filter.
  rewrite <- (batch_outcomes_inds inds w), map_map in Hnd. exact Hnd.
Qed.

(** X4.  The frame of a batch has one of two shapes: when every instrument
    failed it has no column and no row; otherwise it has the four columns
    of a quote and at least one row.  A frame with columns and no row never
    comes out of the batch. *)
Theorem fetch_all_frame_shape (inds : list Indicator) (w : world W) :
  let os := batch_outcomes inds w in
  let df := fst (fetch_all_over inds w) in
  (forallb failed os = true /\ df = mkFrame [] []) \/
  (forallb failed os = false /\
   columns df = quote_columns /\ rows df <> []).
Proof.
  intros os df. subst df. rewrite fetch_all_frame. fold os.
  destruct (forallb failed os) eqn:Hall.
  - left. split; [reflexivity|].
    now rewrite (returned_all_failed os Hall).
  - right. split; [reflexivity|].
    pose proof (returned_some_success os Hall) as Hne.
    pose proof (returned_quotes inds w) as Hsome. fold os in Hsome.
    destruct (returned os) as [|r rest]; [now elim Hne|].
    split; [reflexivity|].
    inversion Hsome as [|x xs Hr _]; subst.
    destruct r as [q|]; [discriminate|now elim Hr].
Qed.

(** X5.  After a batch in which every instrument failed, the page raises
    [KeyError] as soon as a sector is selected or a query is typed,
    whatever the query; with neither, it shows the warning of line 170. *)
Theorem render_after_total_failure
        (inds : list Indicator) (w : world W)
        (selection : list string) (search_query : string) :
  forallb failed (batch_outcomes inds w) = true ->
  let df := fst (fetch_all_over inds w) in
  (selection <> [] \/ search_query <> EmptyString ->
   render selection search_query df = Crash (KeyError "label")) /\
  (selection = [] -> search_query = EmptyString ->
   render selection search_query df = NoDataWarning).
Proof.
  intros Hall df. subst df.
  rewrite fetch_all_frame, (returned_all_failed _ Hall).
  cbn [pd_DataFrame]. split.
  - intros Hactive. unfold render, apply_filters.
    destruct selection as [|s sel]; [|reflexivity].
    destruct search_query as [|c q]; [destruct Hactive as [Hs|Hq];
                                      [now elim Hs|now elim Hq]|].
    reflexivity.
  - intros -> ->. reflexivity.
Qed.

(** The labels of the frame are labels of the instruments; ASCII labels
    of instruments give ASCII labels of rows. *)
Lemma fetch_all_labels_ascii (inds : list Indicator) (w : world W) :
  Forall (fun i => is_ascii (ind_label i) = true) inds ->
  Forall (fun q => is_ascii (label q) = true)
         (rows (fst (fetch_all_over inds w))).
Proof.
  intros Hinds.
  rewrite fetch_all_frame, rows_pd_DataFrame, quotes_of_returned.
  destruct (batch_outcomes_shape inds w) as [Hl _]. cbv zeta in Hl.
  rewrite Forall_forall in *. intros q Hq.
  assert (Hin : In (label q)
                   (map label (fetched (batch_outcomes inds w))))
    by (apply in_map; exact Hq).
  rewrite Hl in Hin. apply in_map_iff in Hin.
  destruct Hin as [io [Hio Hfilter]]. rewrite <- Hio.
  apply Hinds. apply filter_In in Hfilter. destruct Hfilter as [Hos _].
  rewrite <- (batch_outcomes_inds inds w). apply in_map. exact Hos.
Qed.

End BatchFrame.

Lemma INDICATORS_labels_ascii :
  Forall (fun i => is_ascii (ind_label i) = true) INDICATORS.
Proof. repeat (constructor; [reflexivity|]). constructor. Qed.

Lemma INDICATORS_labels_distinct : NoDup (map ind_label INDICATORS).
Proof.
  cbn [map INDICATORS ind_label].
  repeat (constructor; [cbn [In]; intuition discriminate|]).
  constructor.
Qed.

(** The configured instruments against an upstream that refuses the first
    three connections and then answers with the example body. *)
Lemma fetch_all_labels_distinct_witness :
  NoDup (map label
             (rows (fst (fetch_all_over INDICATORS
                           (mkWorld
                              [GetRaised (RequestException "refused");
                               GetRaised (RequestException "refused");
                               GetRaised (RequestException "refused");
                               ok_json nifty_it_body] []))))).
Proof.
  apply (fetch_all_labels_distinct INDICATORS).
  exact INDICATORS_labels_distinct.
Defined.

(** No connection at all, and the sector Nifty IT selected. *)
Lemma render_after_total_failure_witness :
  (["Nifty IT"] <> [] \/ EmptyString <> EmptyString ->
   render (E := fragment_engine) ["Nifty IT"] EmptyString
          (fst (fetch_all_over INDICATORS (mkWorld (@nil http_result) [])))
   = Crash (KeyError "label")) /\
  (["Nifty IT"] = [] -> EmptyString = EmptyString ->
   render (E := fragment_engine) ["Nifty IT"] EmptyString
          (fst (fetch_all_over INDICATORS (mkWorld (@nil http_result) [])))
   = NoDataWarning).
Proof.
  apply (render_after_total_failure
           (E := fragment_engine)
           INDICATORS (mkWorld (@nil http_result) []) ["Nifty IT"] EmptyString).
  vm_compute. reflexivity.
Defined.

(** ** More on one attempt *)

Section AttemptEdges.
Variables (url lbl : string).

(** X6.  A [data] that is present and not [None] passes the check of line
    92 whatever its type.  When it is not a mapping (a list, a text, a
    number, a boolean), or when it is a mapping whose current price is
    present but not a text (a JSON number, say), the attempt fails with an
    [AttributeError] raised at line 95, not with the [ValueError] of
    line 93. *)
Theorem ill_typed_data_fails
        (status : Z) (top : list (string * pyval)) (data : pyval) :
  status_passes status ->
  dict_get top "data" = Some data ->
  data <> PNone ->
  (forall d, data <> PDict d) \/
  (exists d v, data = PDict d /\
               dict_get d "pricecurrent" = Some v /\
               forall s, v <> PStr s) ->
  exists msg,
    attempt_body url lbl (Response status (Some (PDict top)))
    = inl (AttributeError msg).
Proof.
  intros Hs Hdata Hnone Htype.
  unfold attempt_body. rewrite (status_passes_check url _ Hs).
  cbn [bind_attempt checked_data]. rewrite Hdata.
  destruct Htype as [Hnd|[d [v [-> [Hv Hns]]]]].
  - destruct data as [| | | | | |d];
      try (eexists; reflexivity); [now elim Hnone|now elim (Hnd d)].
  - cbn [bind_attempt]. unfold read_field at 1. rewrite Hv.
    destruct v as [| | | |s| |]; try (eexists; reflexivity).
    now elim (Hns s).
Qed.

Lemma read_field_same (d1 d2 : list (string * pyval)) (key : string)
      (strip : ascii) :
  dict_get d1 key = dict_get d2 key ->
  read_field (PDict d1) key strip = read_field (PDict d2) key strip.
Proof. intros Hk. unfold read_field. now rewrite Hk. Qed.

(** X7.  An attempt reads nothing of a response but whether its status
    passes, its [data] item and, in it, the three fields of lines 95 to
    97: two responses that pass the status check and whose [data] mappings
    agree on these three keys end the attempt alike, whatever else they
    hold. *)
Theorem attempt_reads_three_fields
        (s1 s2 : Z) (top1 top2 d1 d2 : list (string * pyval)) :
  status_passes s1 ->
  status_passes s2 ->
  dict_get top1 "data" = Some (PDict d1) ->
  dict_get top2 "data" = Some (PDict d2) ->
  same_fields d1 d2 ->
  attempt_body url lbl (Response s1 (Some (PDict top1)))
  = attempt_body url lbl (Response s2 (Some (PDict top2))).
Proof.
  intros H1 H2 Hd1 Hd2 [Hp [Hc Ht]].
  unfold attempt_body.
  rewrite (status_passes_check url _ H1), (status_passes_check url _ H2).
  cbn [bind_attempt checked_data]. rewrite Hd1, Hd2. cbn [bind_attempt].
  rewrite (read_field_same d1 d2 _ _ Hp), (read_field_same d1 d2 _ _ Hc),
    (read_field_same d1 d2 _ _ Ht).
  reflexivity.
Qed.

End AttemptEdges.

(** A [data] that is an empty list, and a price given as a number. *)
Lemma ill_typed_data_fails_witness :
  (exists msg,
      attempt_body "u" "Nifty IT"
                   (Response 200 (Some (PDict [("data", PList [])])))
      = inl (AttributeError msg)) /\
  (exists msg,
      attempt_body "u" "Nifty IT"
                   (Response 200
                      (Some (PDict [("data",
                                     PDict [("pricecurrent", PInt 34210)])])))
      = inl (AttributeError msg)).
Proof.
  split.
  - apply (ill_typed_data_fails "u" "Nifty IT" 200
                                [("data", PList [])] (PList [])).
    + unfold status_passes. lia.
    + reflexivity.
    + discriminate.
    + left. discriminate.
  - apply (ill_typed_data_fails
             "u" "Nifty IT" 200
             [("data", PDict [("pricecurrent", PInt 34210)])]
             (PDict [("pricecurrent", PInt 34210)])).
    + unfold status_passes. lia.
    + reflexivity.
    + discriminate.
    + right. exists [("pricecurrent", PInt 34210)], (PInt 34210).
      repeat split. discriminate.
Defined.

(** The example body, and the same fields in another order, with two more
    items and under another status. *)
Lemma attempt_reads_three_fields_witness :
  attempt_body "u" "Nifty IT" (ok_json nifty_it_body)
  = attempt_body "u" "Nifty IT"
      (Response 203
         (Some (PDict [("code", PInt 200);
                       ("data",
                        PDict [("pricepercentchange", PStr "-0.35%");
                               ("company", PStr "NIFTY IT");
                               ("pricechange", PStr "-120.30");
                               ("pricecurrent", PStr "34,210.55")])]))).
Proof.
  apply (attempt_reads_three_fields
           "u" "Nifty IT" 200 203
           [("data",
             PDict [("pricecurrent", PStr "34,210.55");
                    ("pricechange", PStr "-120.30");
                    ("pricepercentchange", PStr "-0.35%")])]
           [("code", PInt 200);
            ("data",
             PDict [("pricepercentchange", PStr "-0.35%");
                    ("company", PStr "NIFTY IT");
                    ("pricechange", PStr "-120.30");
                    ("pricecurrent", PStr "34,210.55")])]
           [("pricecurrent", PStr "34,210.55");
            ("pricechange", PStr "-120.30");
            ("pricepercentchange", PStr "-0.35%")]
           [("pricepercentchange", PStr "-0.35%");
            ("company", PStr "NIFTY IT");
            ("pricechange", PStr "-120.30");
            ("pricecurrent", PStr "34,210.55")]).
  - unfold status_passes. lia.
  - unfold status_passes. lia.
  - reflexivity.
  - reflexivity.
  - repeat split.
Defined.

(** ** The URL of a request, line 86 *)

Section Url.

Lemma escape_digits_safe (c : ascii) :
  quote_safe (hex_digit (code c / 16)) = true /\
  quote_safe (hex_digit (code c mod 16)) = true.
Proof.
  destruct c as [[] [] [] [] [] [] [] []]; split; vm_compute; reflexivity.
Qed.

Lemma escape_digits_decode (c : ascii) :
  ascii_of_N (16 * unhex (hex_digit (code c / 16))
              + unhex (hex_digit (code c mod 16))) = c.
Proof.
  destruct c as [[] [] [] [] [] [] [] []]; vm_compute; reflexivity.
Qed.

(** X8.  Whatever the code of the instrument, what line 86 puts in the URL
    for it is made of letters, digits, the characters [_.-~/] and percent
    signs only; a semicolon, a space or a question mark of the code never
    reaches the URL as such. *)
Theorem quote_url_safe (code : string) :
  Forall (fun c => quote_safe c = true \/ c = "%"%char) (chars (quote code)).
Proof.
  induction code as [|c r IH]; [constructor|].
  cbn [quote]. destruct (quote_safe c) eqn:Hc.
  - constructor; [left; exact Hc|exact IH].
  - destruct (escape_digits_safe c) as [Hhi Hlo].
    constructor; [right; reflexivity|].
    constructor; [left; exact Hhi|].
    constructor; [left; exact Hlo|exact IH].
Qed.

Lemma quote_injective (a : string) :
  forall b, quote a = quote b -> a = b.
Proof.
  induction a as [|c r IH]; intros [|c' r'] Heq.
  - reflexivity.
  - cbn [quote] in Heq. destruct (quote_safe c'); discriminate.
  - cbn [quote] in Heq. destruct (quote_safe c); discriminate.
  - cbn [quote] in Heq.
    destruct (quote_safe c) eqn:Hc, (quote_safe c') eqn:Hc'.
    + inversion Heq; subst. f_equal. now apply IH.
    + inversion Heq; subst. vm_compute in Hc. discriminate.
    + inversion Heq; subst. vm_compute in Hc'. discriminate.
    + inversion Heq as [[Hhi Hlo Hrest]].
      f_equal; [|now apply IH].
      rewrite <- (escape_digits_decode c), <- (escape_digits_decode c').
      now rewrite Hhi, Hlo.
Qed.

Lemma append_injective (p a b : string) :
  (p ++ a)%string = (p ++ b)%string -> a = b.
Proof.
  induction p as [|c p IH]; intros Heq; [exact Heq|].
  cbn [String.append] in Heq. inversion Heq. now apply IH.
Qed.

(** X9.  Two different codes are never fetched from the same URL. *)
Theorem url_distinct (code1 code2 : string) :
  code1 <> code2 ->
  API_URL_TEMPLATE (quote code1) <> API_URL_TEMPLATE (quote code2).
Proof.
  intros Hne Heq. apply Hne.
  unfold API_URL_TEMPLATE in Heq.
  apply append_injective in Heq. now apply quote_injective.
Qed.

End Url.

(** A code and the same code percent-escaped by hand: the escape of the
    second escapes its percent sign again. *)
Lemma url_distinct_witness :
  API_URL_TEMPLATE (quote "in;mfy") <> API_URL_TEMPLATE (quote "in%3Bmfy").
Proof.
  apply (url_distinct "in;mfy" "in%3Bmfy"). discriminate.
Defined.

(** ** [decorate_label] and the summary cards *)

Section CardsFacts.

(** X10.  [decorate_label] either returns the label as it is, and then
    none of the keys occurs in it, or it puts before it, and a space, the
    emoji of the first key, in the order of the dict, that occurs in the
    label as a substring, case being significant. *)
Theorem decorate_label_first_key (lbl : string) :
  (decorate_label lbl = lbl /\
   forall key emoji, In (key, emoji) emojis -> str_in key lbl = false) \/
  (exists before key emoji after,
      emojis = before ++ (key, emoji) :: after /\
      (forall k e, In (k, e) before -> str_in k lbl = false) /\
      str_in key lbl = true /\
      decorate_label lbl = (emoji ++ " " ++ lbl)%string).
Proof.
  unfold decorate_label. generalize emojis as items.
  induction items as [|[key emoji] rest IH].
  - left. split; [reflexivity|]. intros key emoji [].
  - cbn [decorate_from]. destruct (str_in key lbl) eqn:Hk.
    + right. exists [], key, emoji, rest.
      repeat split; [intros k e []|exact Hk].
    + destruct IH as [[Hsame Hnone]|[before [k [e [after [Heq [Hb [Hin Hd]]]]]]]].
      * left. split; [exact Hsame|].
        intros k e [Hhead|Htail]; [now inversion Hhead; subst|].
        exact (Hnone k e Htail).
      * right. exists ((key, emoji) :: before), k, e, after.
        repeat split; [now rewrite Heq| |exact Hin|exact Hd].
        intros k' e' [Hhead|Htail]; [now inversion Hhead; subst|].
        exact (Hb k' e' Htail).
Qed.

Lemma firstn_plus {A : Type} (a b : nat) (l : list A) :
  firstn (a + b) l = firstn a l ++ firstn b (skipn a l).
Proof.
  revert l. induction a as [|a IH]; intros l; [reflexivity|].
  destruct l as [|x l]; [now rewrite !firstn_nil|].
  cbn [Nat.add firstn skipn app]. now rewrite IH.
Qed.

(** The slices of four, one after the other, give back the list. *)
Lemma slices_concat {A : Type} (l : list A) (k : nat) :
  List.concat (map (fun i => firstn 4 (skipn (i * 4) l)) (seq 0 k))
  = firstn (k * 4) l.
Proof.
  induction k as [|k IH]; [reflexivity|].
  rewrite seq_S, map_app, concat_app, IH. cbn [map List.concat Nat.add].
  rewrite app_nil_r.
  replace (S k * 4)%nat with (k * 4 + 4)%nat by lia.
  now rewrite firstn_plus.
Qed.

Lemma combine_snd {A B : Type} (a : list A) (b : list B) :
  (List.length b <= List.length a)%nat -> map snd (combine a b) = b.
Proof.
  revert b. induction a as [|x a IH]; intros [|y b] Hlen;
    try reflexivity; cbn [List.length] in Hlen; [lia|].
  cbn [combine map snd]. f_equal. apply IH. lia.
Qed.

Lemma combine_fst {A B : Type} (a : list A) (b : list B) :
  map fst (combine a b)
  = firstn (List.length b) a.
Proof.
  revert b. induction a as [|x a IH]; intros [|y b]; try reflexivity.
  cbn [combine map fst List.length firstn]. f_equal. apply IH.
Qed.

Lemma group_rows (rs : list Quote) (start : nat) :
  map metric_row
      (map (fun cr => mkMetric (fst cr) (decorate_label (label (snd cr)))
                               (snd cr))
           (combine (seq 0 4) (iloc rs start (start + 4))))
  = firstn 4 (skipn start rs).
Proof.
  rewrite map_map. cbn [metric_row].
  unfold iloc. replace (start + 4 - start)%nat with 4%nat by lia.
  change (fun x : nat * Quote => snd x) with (@snd nat Quote).
  apply combine_snd. rewrite length_firstn, length_seq. lia.
Qed.

(** X11.  The summary cards show every row of the frame exactly once and
    in the order of the frame; they come in [ceil(n / 4)] groups, each of
    one to four cards placed in the columns 0, 1, ... from the left, and
    the label of a card is the decorated label of its row. *)
Theorem summary_cards_cover (df : DataFrame) :
  let groups := summary_cards df in
  List.concat (map (map metric_row) groups) = rows df /\
  List.length groups = ((List.length (rows df) + 3) / 4)%nat /\
  Forall (fun g =>
            (1 <= List.length g <= 4)%nat /\
            map metric_column g = seq 0 (List.length g) /\
            Forall (fun m => metric_label m
                             = decorate_label (label (metric_row m))) g)
         groups.
Proof.
  intros groups. subst groups. unfold summary_cards, range_by.
  set (rs := rows df). set (n := List.length rs).
  replace (n + 4 - 1)%nat with (n + 3)%nat by lia.
  split; [|split].
  - rewrite !map_map.
    rewrite (map_ext _ (fun i => firstn 4 (skipn (i * 4) rs)))
      by (intros i; apply group_rows).
    rewrite slices_concat. apply firstn_all2.
    fold n. pose proof (Nat.div_mod_eq (n + 3) 4) as Hd.
    pose proof (Nat.mod_upper_bound (n + 3) 4 ltac:(lia)). lia.
  - now rewrite !length_map, length_seq.
  - rewrite Forall_forall. intros g Hg.
    rewrite map_map in Hg. apply in_map_iff in Hg.
    destruct Hg as [i [<- Hi]]. apply in_seq in Hi.
    assert (Hlt : (i * 4 < n)%nat).
    { pose proof (Nat.div_mod_eq (n + 3) 4) as Hd.
      pose proof (Nat.mod_upper_bound (n + 3) 4 ltac:(lia)). lia. }
    assert (Hlen : List.length (iloc rs (i * 4) (i * 4 + 4))
                   = Nat.min 4 (n - i * 4)).
    { unfold iloc. rewrite length_firstn, length_skipn. fold n. lia. }
    rewrite length_map, length_combine, length_seq, Hlen.
    split; [lia|]. split.
    + rewrite map_map. cbn [metric_column].
      change (fun x : nat * Quote => fst x) with (@fst nat Quote).
      rewrite combine_fst, Hlen.
      replace (Nat.min 4 (Nat.min 4 (n - i * 4)))
        with (Nat.min 4 (n - i * 4)) by lia.
      destruct (Nat.min 4 (n - i * 4)) as [|[|[|[|[|m]]]]] eqn:Hm;
        try reflexivity; lia.
    + rewrite Forall_forall. intros m Hm. apply in_map_iff in Hm.
      destruct Hm as [cr [<- _]]. reflexivity.
Qed.

End CardsFacts.

(** ** More on the filters *)

Section FilterFacts.
Context {E : Regex}.

(** On a frame with the label column, a query that is empty or compiles
    lets the two filters return, and they keep the columns. *)
Lemma apply_filters_returns (selection : list string) (query : string)
      (df : DataFrame) :
  existsb (String.eqb "label") (columns df) = true ->
  query = EmptyString \/ re_compiles query = true ->
  exists df',
    apply_filters selection query df = Done df' /\
    columns df' = columns df.
Proof.
  intros Hcol Hq.
  unfold apply_filters, filter_selection, filter_search, select_rows.
  destruct selection as [|s sel]; [|rewrite Hcol].
  - destruct query as [|c q].
    + exists df. now split.
    + destruct Hq as [Hq|Hq]; [discriminate|].
      rewrite Hcol, Hq. eexists. split; reflexivity.
  - destruct query as [|c q].
    + eexists. split; reflexivity.
    + destruct Hq as [Hq|Hq]; [discriminate|].
      cbn [columns]. rewrite Hcol, Hq. eexists. split; reflexivity.
Qed.

(** X13.  On a frame built from at least one record, with a query that is
    empty or compiles, the page does not raise: it shows the warning of
    line 170, or it goes on to the charts with a frame that has the four
    columns and at least one row. *)
Theorem render_with_columns
        (records : list (option Quote)) (selection : list string)
        (query : string) :
  records <> [] ->
  query = EmptyString \/ re_compiles query = true ->
  render selection query (pd_DataFrame records) = NoDataWarning \/
  exists df',
    render selection query (pd_DataFrame records) = Charts df' /\
    columns df' = quote_columns /\ rows df' <> [].
Proof.
  intros Hne Hq. destruct records as [|r rs]; [now elim Hne|].
  cbn [pd_DataFrame]. unfold render.
  destruct (apply_filters_returns
              selection query
              (mkFrame quote_columns (quotes_of (r :: rs))) eq_refl Hq)
    as [df' [Hf Hc]].
  rewrite Hf. cbn [columns] in Hc.
  unfold df_empty. rewrite Hc. cbn [quote_columns].
  destruct (rows df') as [|q qs] eqn:Hr; [left; reflexivity|].
  right. exists df'. rewrite Hr. repeat split; [exact Hc|discriminate].
Qed.

(** With an engine as documented, that covers every query of plain
    characters and dots. *)
Lemma render_with_columns_plain
      (records : list (option Quote)) (selection : list string)
      (query : string) (atoms : list atom) :
  re_documented E ->
  records <> [] ->
  re_compile (chars query) = Some atoms ->
  render selection query (pd_DataFrame records) = NoDataWarning \/
  exists df',
    render selection query (pd_DataFrame records) = Charts df' /\
    columns df' = quote_columns /\ rows df' <> [].
Proof.
  intros [Hcompiles _] Hne Hre.
  apply render_with_columns; [exact Hne|].
  right. exact (Hcompiles _ _ Hre).
Qed.


End FilterFacts.

Lemma render_with_columns_witness :
  render (E := fragment_engine) ["Nifty Auto"] "it"
         (pd_DataFrame [Some quote_it; Some quote_auto])
    = NoDataWarning \/
  exists df',
    render (E := fragment_engine) ["Nifty Auto"] "it"
           (pd_DataFrame [Some quote_it; Some quote_auto])
      = Charts df' /\
    columns df' = quote_columns /\ rows df' <> [].
Proof.
  apply (render_with_columns
           (E := fragment_engine)
           [Some quote_it; Some quote_auto] ["Nifty Auto"] "it").
  - discriminate.
  - right. reflexivity.
Defined.


(** ** Reruns of the page *)

Section RerunFacts.
Context {W : Type} `{Upstream W}.

(** X15.  However many times the page is run while the entry of the cache
    is younger than 300, every run gets the frame of the entry, the entry
    stays, the upstream is not contacted, and the log only gains, once
    for each run, the page elements stored with the entry. *)
Theorem reruns_within_ttl
        (times : list Z) (e : cache_entry) (w : world W) :
  Forall (fun t => t < created_at e + 300) times ->
  rerun times (Some e) w =
  (map (fun _ => value e) times,
   Some e,
   mkWorld (net w)
           (log w ++ List.concat (map (fun _ => messages e) times))).
Proof.
  revert w. induction times as [|t rest IH]; intros w Hall.
  - cbn [rerun map List.concat]. rewrite app_nil_r. now destruct w.
  - inversion Hall as [|x xs Ht Hrest]; subst.
    cbn [rerun]. unfold fetch_all_indicators.
    rewrite (cache_data_hit 300 _ t e w Ht).
    rewrite (IH _ Hrest). cbn [net log map List.concat].
    now rewrite <- app_assoc.
Qed.

End RerunFacts.

(** Three runs within five minutes of an entry stored at time 0, against
    an upstream that would answer. *)
Lemma reruns_within_ttl_witness :
  rerun [10; 150; 299]
        (Some (mkEntry (mkFrame quote_columns [quote_it]) [] 0))
        (mkWorld [ok_json nifty_it_body] []) =
  (map (fun _ => mkFrame quote_columns [quote_it]) [10; 150; 299],
   Some (mkEntry (mkFrame quote_columns [quote_it]) [] 0),
   mkWorld [ok_json nifty_it_body]
           ([] ++ List.concat (map (fun _ => @nil event) [10; 150; 299]))).
Proof.
  apply (reruns_within_ttl
           [10; 150; 299]
           (mkEntry (mkFrame quote_columns [quote_it]) [] 0)
           (mkWorld [ok_json nifty_it_body] [])).
  repeat constructor.
Defined.

(** ** Texts that are no number *)

Section BadTexts.
Variables (url lbl : string).

Lemma remove_char_keeps (c x : ascii) (s : string) :
  x <> c -> In x (chars s) -> In x (chars (remove_char c s)).
Proof.
  intros Hne. induction s as [|a r IH]; [intros []|].
  cbn [remove_char]. destruct (Ascii.eqb a c) eqn:Hac.
  - apply Ascii.eqb_eq in Hac. subst a.
    intros [Heq|Hin]; [now elim Hne|exact (IH Hin)].
  - intros [Heq|Hin]; [left; exact Heq|right; exact (IH Hin)].
Qed.

(** X16.  A current price that is present as a text but holds a percent
    sign, or nothing at all once its commas are removed (the empty text,
    for one), fails the attempt with [ValueError]: only a missing price
    is read as zero. *)
Theorem unreadable_price_fails
        (status : Z) (top d : list (string * pyval)) (p : string) :
  status_passes status ->
  dict_get top "data" = Some (PDict d) ->
  dict_get d "pricecurrent" = Some (PStr p) ->
  In "%"%char (chars p) \/ remove_char "," p = EmptyString ->
  attempt_body url lbl (Response status (Some (PDict top)))
  = inl (ValueError "could not convert string to float").
Proof.
  intros Hs Hdata Hp Hbad.
  unfold attempt_body. rewrite (status_passes_check url _ Hs).
  cbn [bind_attempt checked_data]. rewrite Hdata. cbn [bind_attempt].
  unfold read_field at 1. rewrite Hp.
  destruct (float (remove_char "," p)) as [f|] eqn:Hf; [|reflexivity].
  exfalso. destruct Hbad as [Hin|Hempty].
  - apply (float_no_percent _ _ Hf).
    apply remove_char_keeps; [discriminate|exact Hin].
  - rewrite Hempty in Hf. vm_compute in Hf. discriminate.
Qed.

End BadTexts.

(** A price written with a percent sign, and a price that is only a
    comma. *)
Lemma unreadable_price_fails_witness :
  attempt_body "u" "Nifty IT"
    (Response 200
       (Some (PDict [("data", PDict [("pricecurrent", PStr "12%")])])))
  = inl (ValueError "could not convert string to float") /\
  attempt_body "u" "Nifty IT"
    (Response 200
       (Some (PDict [("data", PDict [("pricecurrent", PStr ",")])])))
  = inl (ValueError "could not convert string to float").
Proof.
  split.
  - apply (unreadable_price_fails
             "u" "Nifty IT" 200
             [("data", PDict [("pricecurrent", PStr "12%")])]
             [("pricecurrent", PStr "12%")] "12%").
    + unfold status_passes. lia.
    + reflexivity.
    + reflexivity.
    + left. cbn. tauto.
  - apply (unreadable_price_fails
             "u" "Nifty IT" 200
             [("data", PDict [("pricecurrent", PStr ",")])]
             [("pricecurrent", PStr ",")] ",").
    + unfold status_passes. lia.
    + reflexivity.
    + reflexivity.
    + right. reflexivity.
Defined.
